(** * Network repair and objective reconstruction of [pypsa_optimize_gurobi.py]

    A shallow embedding of the data-repair pipeline
    ([create_pypsa_network], [fix_artificial_lines_reasonable],
    [remove_offshore_wind]) and of the post-hoc cost recomputation
    ([total_objective]) of [src/pypsa_optimize_gurobi.py].

    Modelling conventions.
    - Python floats are read as exact rationals ([Q]); rounding is not
      modelled.  [==] is equality of rationals, [=] equality of their
      representation.
    - A pandas table indexed by component name is a [gmap string _]: PyPSA
      keeps component names unique.  Iterating over its index is iterating
      over [map_to_list].
    - A time-series table is a [TimeFrame]: a snapshot index and one column
      per component name; a cell missing from a column is NaN.
    - Code that can raise ([KeyError], [AttributeError]) lives in the
      [option] monad; [None] is the exception.
    - Identifiers are ASCII strings. *)

From Stdlib Require Import Ascii String QArith Qminmax Lqa.
From stdpp Require Import gmap strings list fin_maps.

(** ** Numbers *)

(** Python's [max(a, b)]: the second argument replaces the first only when it
    is strictly greater. *)
Definition py_max (a b : Q) : Q := if Qlt_le_dec a b then b else a.

(** ** Strings *)

(** [str.lower] on an ASCII character. *)
Definition lower_ascii (c : ascii) : ascii :=
  let n := N_of_ascii c in
  if ((65 <=? n) && (n <=? 90))%N then ascii_of_N (n + 32) else c.

Fixpoint lower (s : string) : string :=
  match s with
  | EmptyString => EmptyString
  | String c s' => String (lower_ascii c) (lower s')
  end.

(** [needle in hay]. *)
Fixpoint contains (needle hay : string) : bool :=
  String.prefix needle hay ||
  match hay with
  | EmptyString => false
  | String _ hay' => contains needle hay'
  end.

(** What "[hay] contains the substring [needle]" means. *)
Definition is_substring (needle hay : string) : Prop :=
  ∃ pre post : string, hay = (pre +:+ needle +:+ post)%string.


(** ** Tables *)

Module Load.
Record t := { bus : string }.
End Load.

Module Line.
Record t := { bus0 : string; bus1 : string; s_nom : Q }.
Definition set_s_nom (v : Q) (r : t) : t :=
  {| bus0 := bus0 r; bus1 := bus1 r; s_nom := v |}.
End Line.

Module Generator.
Record t := {
  marginal_cost : Q;
  p_nom : Q;
  control : string;
  carrier : string
}.
End Generator.

Module StorageUnit.
Record t := {
  bus : string;
  p_nom : Q;
  cyclic_state_of_charge : bool;
  marginal_cost : Q;
  marginal_cost_storage : Q;
  spill_cost : Q;
  efficiency_store : Q;
  max_hours : Q
}.
End StorageUnit.

(** A table of per-snapshot values, one column per component. *)
Record TimeFrame := {
  tf_index : gset nat;
  tf_columns : gmap string (gmap nat Q)
}.

(** [frame[name].max()]: the largest non-NaN cell of the column over the
    index, NaN ([None]) when there is none. *)
Definition series_max (index : list nat) (column : gmap nat Q) : option Q :=
  foldr (λ s acc,
           match column !! s, acc with
           | None, _ => acc
           | Some v, None => Some v
           | Some v, Some m => Some (Qmax v m)
           end) None index.

Definition column_max (frame : TimeFrame) (name : string) : option Q :=
  column ← tf_columns frame !! name;
  series_max (elements (tf_index frame)) column.

(** [frame.loc[snapshot]]: the row as a series over the column names, NaN
    cells left out; [KeyError] when the snapshot is not in the index. *)
Definition loc (frame : TimeFrame) (snapshot : nat) : option (gmap string Q) :=
  if decide (snapshot ∈ tf_index frame)
  then Some (omap (λ column : gmap nat Q, column !! snapshot) (tf_columns frame))
  else None.

(** [a * b] on two series: aligned on the labels; a label missing on either
    side gives NaN, which [sum] skips, so only common labels are kept. *)
Definition series_mul (a b : gmap string Q) : gmap string Q :=
  intersection_with (λ x y, Some (x * y)%Q) a b.

(** [series.sum()]. *)
Definition series_sum (a : gmap string Q) : Q :=
  foldr (λ kv acc, (kv.2 + acc)%Q) 0%Q (map_to_list a).

(** [frame.drop(name, axis=1)]. *)
Definition drop_column (name : string) (frame : TimeFrame) : TimeFrame :=
  {| tf_index := tf_index frame; tf_columns := delete name (tf_columns frame) |}.

(** ** The network *)

Record Network := {
  buses : gset string;
  loads : gmap string Load.t;
  loads_t_p_set : TimeFrame;
  lines : gmap string Line.t;
  (* the column [lines.s_nom_extendable]; [None] when the table lacks it *)
  lines_s_nom_extendable : option (gmap string bool);
  generators : gmap string Generator.t;
  generators_t : gmap string TimeFrame;
  storage_units : gmap string StorageUnit.t;
  storage_units_t : gmap string TimeFrame;
  snapshots : list nat;
  snapshot_weightings_objective : gmap nat Q
}.

Definition set_lines (l : gmap string Line.t) (e : option (gmap string bool))
    (nw : Network) : Network :=
  {| buses := buses nw; loads := loads nw; loads_t_p_set := loads_t_p_set nw;
     lines := l; lines_s_nom_extendable := e;
     generators := generators nw; generators_t := generators_t nw;
     storage_units := storage_units nw; storage_units_t := storage_units_t nw;
     snapshots := snapshots nw;
     snapshot_weightings_objective := snapshot_weightings_objective nw |}.

Definition set_generators (g : gmap string Generator.t)
    (gt : gmap string TimeFrame) (nw : Network) : Network :=
  {| buses := buses nw; loads := loads nw; loads_t_p_set := loads_t_p_set nw;
     lines := lines nw; lines_s_nom_extendable := lines_s_nom_extendable nw;
     generators := g; generators_t := gt;
     storage_units := storage_units nw; storage_units_t := storage_units_t nw;
     snapshots := snapshots nw;
     snapshot_weightings_objective := snapshot_weightings_objective nw |}.

Definition set_storage_units (u : gmap string StorageUnit.t)
    (nw : Network) : Network :=
  {| buses := buses nw; loads := loads nw; loads_t_p_set := loads_t_p_set nw;
     lines := lines nw; lines_s_nom_extendable := lines_s_nom_extendable nw;
     generators := generators nw; generators_t := generators_t nw;
     storage_units := u; storage_units_t := storage_units_t nw;
     snapshots := snapshots nw;
     snapshot_weightings_objective := snapshot_weightings_objective nw |}.

(** [table.index] as the list a [for] loop walks through. *)
Definition index {A} (table : gmap string A) : list string :=
  (map_to_list table).*1.

(** A loop whose body can raise. *)
Fixpoint for_each {St A} (body : St → A → option St) (l : list A) (st : St)
    : option St :=
  match l with
  | [] => Some st
  | x :: l' => st' ← body st x; for_each body l' st'
  end.

(** ** Synthetic Line Capacity Fixer *)

Definition keywords : list string := ["new"; "<->"; "artificial"]%string.

Definition keyword_match (line : string) : bool :=
  existsb (λ keyword, contains keyword (lower line)) keywords.

Definition zero_capacity_lines (nw : Network) : list string :=
  index (filter (λ kv : string * Line.t, Qeq_bool (Line.s_nom kv.2) 0 = true)
                (lines nw)).

Definition artificial_lines (nw : Network) : list string :=
  let artificial := List.filter keyword_match (index (lines nw)) in
  match artificial with
  | [] =>
      match zero_capacity_lines nw with
      | [] => artificial
      | zero => zero
      end
  | _ => artificial
  end.

(** The body of the inner loop over [network.loads.iterrows()]. *)
Definition demand_step (nw : Network) (bus : string) (bus_demand : Q)
    (row : string * Load.t) : Q :=
  let (load_name, load) := row in
  if bool_decide (Load.bus load = bus) then
    (* [load_name in network.loads_t.p_set.columns] is the [Some] case *)
    match column_max (loads_t_p_set nw) load_name with
    | Some m => py_max bus_demand m
    | None => bus_demand
    end
  else bus_demand.

Definition bus_demand (nw : Network) (bus : string) : Q :=
  fold_left (demand_step nw bus) (map_to_list (loads nw)) 0%Q.

Definition bus_max_demand (nw : Network) : gmap string Q :=
  fold_left (λ d bus, <[bus := bus_demand nw bus]> d) (elements (buses nw)) ∅.

Definition safety_factor : Q := 3.

Definition required_capacity (d : gmap string Q) (row : Line.t) : Q :=
  let bus0_demand := default 0%Q (d !! Line.bus0 row) in
  let bus1_demand := default 0%Q (d !! Line.bus1 row) in
  let required_capacity := (py_max bus0_demand bus1_demand * safety_factor)%Q in
  py_max required_capacity 1000.

(** The body of the loop over [artificial_lines].  Reading
    [.loc[line_name, 'bus0']] raises [KeyError] for an unknown label. *)
Definition fix_line (d : gmap string Q) (nw : Network) (line_name : string)
    : option Network :=
  row ← lines nw !! line_name;
  let lines' := <[line_name := Line.set_s_nom (required_capacity d row) row]> (lines nw) in
  let column :=
    match lines_s_nom_extendable nw with
    | None => (λ _, false) <$> lines'
    | Some column => column
    end in
  Some (set_lines lines' (Some (<[line_name := false]> column)) nw).

Definition fix_artificial_lines_reasonable (nw : Network) : option Network :=
  let artificial_lines := artificial_lines nw in
  let bus_max_demand := bus_max_demand nw in
  for_each (fix_line bus_max_demand) artificial_lines nw.

(** *** Peak demand in the specification's words *)

(** The cells of one load's time series. *)
Definition load_values (nw : Network) (load_name : string) : list Q :=
  match tf_columns (loads_t_p_set nw) !! load_name with
  | Some column => omap (λ s, column !! s) (elements (tf_index (loads_t_p_set nw)))
  | None => []
  end.

(** The cells of the time series of a load, when it is attached to [bus]. *)
Definition values_at (nw : Network) (bus : string) (row : string * Load.t)
    : list Q :=
  if bool_decide (Load.bus row.2 = bus) then load_values nw row.1 else [].

Definition attached_values (nw : Network) (bus : string) : list Q :=
  map_to_list (loads nw) ≫= values_at nw bus.

Definition maximum_or_0 (l : list Q) : Q :=
  match l with
  | [] => 0%Q
  | x :: l' => foldr Qmax x l'
  end.

(** In the specification's words: the maximum, over all snapshots, of the
    load time series of every load attached to the bus; 0 if no load is
    attached or the bus is missing.  Unlike [bus_demand] it is not clamped
    at 0. *)
Definition peakDemand (nw : Network) (bus : string) : Q :=
  if decide (bus ∈ buses nw) then maximum_or_0 (attached_values nw bus) else 0%Q.

(** ** Invalid Generator Pruner *)

(** Modelled from the spec: [network.remove("Generator", name)] is a method
    of the PyPSA library and has no source under [src/].  Following section
    4.3 ("remove each one entirely from the model (all associated attributes
    and any time-series columns keyed by that identifier)"), it drops the row
    of the generator table ([KeyError] when there is none) and the column of
    that name from every time-series table of the generators. *)
Definition remove (nw : Network) (name : string) : option Network :=
  if decide (name ∈ dom (generators nw)) then
    Some (set_generators (delete name (generators nw))
                         (drop_column name <$> generators_t nw) nw)
  else None.

(** [index.str.contains('offwind', case=False)]. *)
Definition offwind_match (name : string) : bool :=
  contains "offwind" (lower name).

Definition offwind_gens (nw : Network) : list string :=
  List.filter offwind_match (index (generators nw)).

Definition remove_offshore_wind (nw : Network) : option Network :=
  for_each remove (offwind_gens nw) nw.

(** ** Storage Parameter Normalizer *)

(** What the loop body writes into the row of [storage_name]. *)
Definition normalized_row (storage_name : string) (row : StorageUnit.t)
    : StorageUnit.t :=
  let current_max_hours := StorageUnit.max_hours row in
  {| StorageUnit.bus := StorageUnit.bus row;
     StorageUnit.p_nom := StorageUnit.p_nom row;
     StorageUnit.cyclic_state_of_charge := false;
     StorageUnit.marginal_cost := 0.01;
     StorageUnit.marginal_cost_storage := 0.01;
     StorageUnit.spill_cost := 0.1;
     StorageUnit.efficiency_store := 0.866025;
     StorageUnit.max_hours :=
       if contains "PHS" storage_name then 8
       else if contains "hydro" storage_name then 6
       else current_max_hours |}.

(** The body of the loop over [network.storage_units.index].  The labels
    come from the index, so the row is there; [None] stands for the case of
    an unknown label, which the loop never meets. *)
Definition normalize_storage_unit (nw : Network) (storage_name : string)
    : option Network :=
  row ← storage_units nw !! storage_name;
  Some (set_storage_units
          (<[storage_name := normalized_row storage_name row]> (storage_units nw))
          nw).

(** The loop at the head of [create_pypsa_network]. *)
Definition normalize_storage_units (nw : Network) : option Network :=
  for_each normalize_storage_unit (index (storage_units nw)) nw.

(** [create_pypsa_network], from the network that [pypsa.Network(file)]
    loaded. *)
Definition create_pypsa_network (network : Network) : option Network :=
  network ← normalize_storage_units network;
  network ← fix_artificial_lines_reasonable network;
  remove_offshore_wind network.

(** ** Objective Reconstructor *)

(** [(costs * frame.loc[snapshot]).sum()]. *)
Definition cost_at {A} (table : gmap string A) (cost : A → Q)
    (frame : TimeFrame) (snapshot : nat) : option Q :=
  power ← loc frame snapshot;
  Some (series_sum (series_mul (cost <$> table) power)).

(** The body of the loop over [network.snapshots]. *)
Definition add_snapshot (nw : Network) (total_objective : Q) (snapshot : nat)
    : option Q :=
  snapshot_weighting ← snapshot_weightings_objective nw !! snapshot;
  total_objective ←
    (if (0 <? size (generators nw))%nat then
       p ← generators_t nw !! "p"%string;
       gen_cost ← cost_at (generators nw) Generator.marginal_cost p snapshot;
       Some (total_objective + gen_cost * snapshot_weighting)%Q
     else Some total_objective);
  if (0 <? size (storage_units nw))%nat then
    p_dispatch ← storage_units_t nw !! "p_dispatch"%string;
    storage_cost ←
      cost_at (storage_units nw) StorageUnit.marginal_cost p_dispatch snapshot;
    let total_objective := (total_objective + storage_cost * snapshot_weighting)%Q in
    p_store ← storage_units_t nw !! "p_store"%string;
    storage_store_cost ←
      cost_at (storage_units nw) StorageUnit.marginal_cost_storage p_store snapshot;
    let total_objective :=
      (total_objective + storage_store_cost * snapshot_weighting)%Q in
    match storage_units_t nw !! "spill"%string with
    | Some spill =>
        spill_cost ← cost_at (storage_units nw) StorageUnit.spill_cost spill snapshot;
        Some (total_objective + spill_cost * snapshot_weighting)%Q
    | None => Some total_objective
    end
  else Some total_objective.

Definition total_objective (nw : Network) : option Q :=
  for_each (add_snapshot nw) (snapshots nw) 0%Q.










(** The tables the reconstruction reads have a row for every snapshot:
    the weightings always, a result table when its component table is not
    empty (and, for spill, when the table exists). *)
Definition frame_covers (nw : Network) (frame : option TimeFrame) : Prop :=
  ∃ f, frame = Some f ∧ ∀ s, s ∈ snapshots nw → s ∈ tf_index f.

Definition results_populated (nw : Network) : Prop :=
  (∀ s, s ∈ snapshots nw → is_Some (snapshot_weightings_objective nw !! s)) ∧
  (generators nw ≠ ∅ → frame_covers nw (generators_t nw !! "p"%string)) ∧
  (storage_units nw ≠ ∅ →
     frame_covers nw (storage_units_t nw !! "p_dispatch"%string) ∧
     frame_covers nw (storage_units_t nw !! "p_store"%string) ∧
     (is_Some (storage_units_t nw !! "spill"%string) →
      frame_covers nw (storage_units_t nw !! "spill"%string))).

(** The row of line [name] once the loop over [artificial] has run. *)
Definition fixed_row (d : gmap string Q) (artificial : list string)
    (name : string) (row : Line.t) : Line.t :=
  if bool_decide (name ∈ artificial)
  then Line.set_s_nom (required_capacity d row) row
  else row.

(** The extendability flags before the loop writes to them: the column the
    table has, or the all-[False] column that is created for a table without
    one. *)
Definition flag_column (nw : Network) : gmap string bool :=
  match lines_s_nom_extendable nw with
  | Some column => column
  | None => (λ _, false) <$> lines nw
  end.

(** The lines found by name, the first list [artificial_lines] computes. *)
Definition keyword_lines (nw : Network) : list string :=
  List.filter keyword_match (index (lines nw)).

(** ** Example networks *)

Definition empty_frame : TimeFrame := {| tf_index := ∅; tf_columns := ∅ |}.

Definition bare_network : Network :=
  {| buses := ∅; loads := ∅; loads_t_p_set := empty_frame;
     lines := ∅; lines_s_nom_extendable := None;
     generators := ∅; generators_t := ∅;
     storage_units := ∅; storage_units_t := ∅;
     snapshots := []; snapshot_weightings_objective := ∅ |}.

Definition with_demand (b : gset string) (l : gmap string Load.t)
    (p_set : TimeFrame) (nw : Network) : Network :=
  {| buses := b; loads := l; loads_t_p_set := p_set;
     lines := lines nw; lines_s_nom_extendable := lines_s_nom_extendable nw;
     generators := generators nw; generators_t := generators_t nw;
     storage_units := storage_units nw; storage_units_t := storage_units_t nw;
     snapshots := snapshots nw;
     snapshot_weightings_objective := snapshot_weightings_objective nw |}.

(** Two buses: A with peak demand 200, B with peak demand 500. *)
Definition two_bus_network : Network :=
  with_demand
    {[ "A"; "B" ]}%string
    (<["load A"%string := {| Load.bus := "A" |}]>
       {[ "load B"%string := {| Load.bus := "B" |} ]})
    {| tf_index := {[ 0%nat; 1%nat ]};
       tf_columns :=
         <["load A"%string := <[0%nat := 200%Q]> {[ 1%nat := 150%Q ]}]>
           {[ "load B"%string := <[0%nat := 300%Q]> {[ 1%nat := 500%Q ]} ]} |}
    bare_network.

(** Scenario 1: one synthetic line named [A<->B] between them. *)
Definition scenario_1 : Network :=
  set_lines
    {[ "A<->B"%string := {| Line.bus0 := "A"; Line.bus1 := "B"; Line.s_nom := 0 |} ]}
    None two_bus_network.

(** Scenario 2: one synthetic line between two buses without demand. *)
Definition scenario_2 : Network :=
  set_lines
    {[ "new line"%string := {| Line.bus0 := "A"; Line.bus1 := "B"; Line.s_nom := 0 |} ]}
    None
    (with_demand {[ "A"; "B" ]}%string ∅ empty_frame bare_network).

(** A line found by name whose capacity is already above what the fix
    computes, next to an ordinary line. *)
Definition oversized_network : Network :=
  set_lines
    (<["Artificial 1"%string :=
         {| Line.bus0 := "A"; Line.bus1 := "B"; Line.s_nom := 5000 |}]>
       {[ "1"%string :=
            {| Line.bus0 := "A"; Line.bus1 := "B"; Line.s_nom := 0 |} ]})
    (Some (<["Artificial 1"%string := true]> {[ "1"%string := true ]}))
    two_bus_network.

(** A time-series table once the columns named in [names] are dropped. *)
Definition without_columns (names : list string) (frame : TimeFrame)
    : TimeFrame :=
  {| tf_index := tf_index frame;
     tf_columns := filter (λ kv, kv.1 ∉ names) (tf_columns frame) |}.

Definition one_column (name : string) (cells : gmap nat Q) : TimeFrame :=
  {| tf_index := dom cells; tf_columns := {[ name := cells ]} |}.

Definition coal : Generator.t :=
  {| Generator.marginal_cost := 10; Generator.p_nom := 100;
     Generator.control := "PQ"; Generator.carrier := "coal" |}.



Definition unit (hours : Q) : StorageUnit.t :=
  {| StorageUnit.bus := "A"; StorageUnit.p_nom := 50;
     StorageUnit.cyclic_state_of_charge := true;
     StorageUnit.marginal_cost := 0; StorageUnit.marginal_cost_storage := 0;
     StorageUnit.spill_cost := 0; StorageUnit.efficiency_store := 1;
     StorageUnit.max_hours := hours |}.

Definition storage_network : Network :=
  set_storage_units
    (<["ZA0 0 PHS"%string := unit 100]>
       (<["ZA0 1 hydro"%string := unit 2000]>
          (<["PHS hydro"%string := unit 3]>
             (<["ZA0 2 phs"%string := unit 4]>
                (<["ZA0 3 Hydro"%string := unit 5]>
                   {[ "ZA0 4 battery"%string := unit 7 ]})))))
    two_bus_network.

(** The row of unit [name] once the normalizing loop over [names] has run. *)
Definition normalized_in (names : list string) (name : string)
    (row : StorageUnit.t) : StorageUnit.t :=
  if bool_decide (name ∈ names) then normalized_row name row else row.



Definition with_results (gt sut : gmap string TimeFrame) (snaps : list nat)
    (w : gmap nat Q) (nw : Network) : Network :=
  {| buses := buses nw; loads := loads nw; loads_t_p_set := loads_t_p_set nw;
     lines := lines nw; lines_s_nom_extendable := lines_s_nom_extendable nw;
     generators := generators nw; generators_t := gt;
     storage_units := storage_units nw; storage_units_t := sut;
     snapshots := snaps; snapshot_weightings_objective := w |}.

(** Scenario 3: two snapshots weighted 1 and 2, one generator of marginal
    cost 10 dispatched at 5 and 7, no storage. *)
Definition scenario_3 : Network :=
  with_results
    {[ "p"%string := one_column "ZA0 0 coal" (<[0%nat := 5%Q]> {[ 1%nat := 7%Q ]}) ]}
    ∅ [0%nat; 1%nat] (<[0%nat := 1%Q]> {[ 1%nat := 2%Q ]})
    (set_generators {[ "ZA0 0 coal"%string := coal ]} ∅ bare_network).

Definition normalized_unit : StorageUnit.t :=
  {| StorageUnit.bus := "A"; StorageUnit.p_nom := 50;
     StorageUnit.cyclic_state_of_charge := false;
     StorageUnit.marginal_cost := 0.01; StorageUnit.marginal_cost_storage := 0.01;
     StorageUnit.spill_cost := 0.1; StorageUnit.efficiency_store := 0.866025;
     StorageUnit.max_hours := 8 |}.

Definition storage_results : gmap string TimeFrame :=
  <["p_dispatch"%string :=
      one_column "ZA0 0 PHS" (<[0%nat := 3%Q]> {[ 1%nat := 4%Q ]})]>
    {[ "p_store"%string :=
         one_column "ZA0 0 PHS" (<[0%nat := 1%Q]> {[ 1%nat := 2%Q ]}) ]}.

(** Scenario 4: scenario 3 with one storage unit and no spill table. *)
Definition scenario_4 : Network :=
  with_results (generators_t scenario_3) storage_results
    (snapshots scenario_3) (snapshot_weightings_objective scenario_3)
    (set_storage_units {[ "ZA0 0 PHS"%string := normalized_unit ]} scenario_3).

(** The same with a spill table. *)
Definition scenario_4_spill : Network :=
  with_results (generators_t scenario_4)
    (<["spill"%string :=
         one_column "ZA0 0 PHS" (<[0%nat := 10%Q]> {[ 1%nat := 20%Q ]})]>
       storage_results)
    (snapshots scenario_4) (snapshot_weightings_objective scenario_4)
    scenario_4.

(** ** The diagnostics script [plot_constraints.py]

    The script reads six CSV logs and saves three figures.  A CSV file is
    the list of its parsed rows; the file system is a map from path to file.
    A figure is the record of what the script draws on it; the run returns
    the figures saved so far and whether it reached its end without an
    exception. *)

Module Plot.

Record Row := { step : Z; timestamp : string; value : Q }.

Record Curve := {
  curve_x : list Z;
  curve_y : list Q;
  marker : string;
  label : string
}.

Record Figure := {
  curves : list Curve;
  title : string;
  xlabel : string;
  ylabel : string;
  xticks : list Z
}.

Definition constraint_labels : gmap string string :=
  <["0" := "p_min_ZA0 0 coal"]>
    (<["2" := "p_max_ZA0 0 coal"]> {[ "4" := "soc_min_ZA0 0 PHS" ]})%string.

Definition keys : gmap string string :=
  (<["EL-13" := "EnvDispatchReplacement"]> {[ "EL-14" := "EnvDispatchConstr" ]})%string.

(** [f"RL/constraints/{key}__constraint_{constraint_num}.csv"]. *)
Definition file_path (key constraint_num : string) : string :=
  ("RL/constraints/" +:+ key +:+ "__constraint_" +:+ constraint_num +:+ ".csv")%string.

(** [f"RL/constraint_plots/constraint_{constraint_num}.png"]. *)
Definition plot_path (constraint_num : string) : string :=
  ("RL/constraint_plots/constraint_" +:+ constraint_num +:+ ".png")%string.

(** [pd.read_csv(file_path, header=None, names=[...])]: [FileNotFoundError]
    for a missing file, [EmptyDataError] for a file without rows. *)
Definition read_csv (files : gmap string (list Row)) (path : string)
    : option (list Row) :=
  match files !! path with
  | Some (r :: rows) => Some (r :: rows)
  | _ => None
  end.

(** Python's [max] over a sequence; [ValueError] when it is empty. *)
Definition py_max_list (l : list Z) : option Z :=
  match l with
  | [] => None
  | x :: l' => Some (fold_left Z.max l' x)
  end.

(** [np.arange(0, stop, 1)]. *)
Definition arange (stop : Z) : list Z :=
  Z.of_nat <$> seq 0 (Z.to_nat stop).

(** The body of the loop over the keys: reads the log, plots it, and leaves
    the table in [df]. *)
Definition plot_key (files : gmap string (list Row)) (constraint_num : string)
    (st : list Curve * list Row) (key : string)
    : option (list Curve * list Row) :=
  df ← read_csv files (file_path key constraint_num);
  name ← keys !! key;
  Some (st.1 ++ [ {| curve_x := step <$> df; curve_y := value <$> df;
                     marker := "o"; label := name |} ],
        df).

(** The body of the loop over the constraint numbers, up to [savefig]. *)
Definition make_figure (files : gmap string (list Row)) (constraint_num : string)
    : option Figure :=
  '(plotted, df) ← for_each (plot_key files constraint_num)
                            ["EL-13"; "EL-14"]%string ([], []);
  name ← constraint_labels !! constraint_num;
  last ← py_max_list (step <$> df);
  Some {| curves := plotted; title := name;
          xlabel := "Step"; ylabel := "Total Violation";
          xticks := arange (last + 1) |}.

(** The loop over the constraint numbers: the figures saved, in order, and
    whether the loop ran to its end. *)
Fixpoint save_figures (files : gmap string (list Row)) (nums : list string)
    (saved : list (string * Figure)) : list (string * Figure) * bool :=
  match nums with
  | [] => (saved, true)
  | constraint_num :: nums' =>
      match make_figure files constraint_num with
      | Some fig =>
          save_figures files nums' (saved ++ [(plot_path constraint_num, fig)])
      | None => (saved, false)
      end
  end.

Definition constraint_nums : list string := ["0"; "2"; "4"]%string.

Definition script (files : gmap string (list Row)) : list (string * Figure) * bool :=
  save_figures files constraint_nums [].

(** Example logs: the EL-13 run is one step longer than the EL-14 run. *)
Definition log (steps : list Z) : list Row :=
  (λ s, {| step := s; timestamp := "2025-01-01"; value := inject_Z s |}) <$> steps.

Definition example_files : gmap string (list Row) :=
  list_to_map
    (((λ n, (file_path "EL-13" n, log [0; 1; 2; 3]%Z)) <$> constraint_nums)
     ++ ((λ n, (file_path "EL-14" n, log [0; 1; 2]%Z)) <$> constraint_nums)).

End Plot.

(** What one pass of the loop over the snapshots reads without raising: the
    weight of the snapshot, and the snapshot's row of each result table the
    pass looks at. *)
Definition has_row (frame : option TimeFrame) (s : nat) : Prop :=
  ∃ f, frame = Some f ∧ s ∈ tf_index f.

Definition snapshot_readable (nw : Network) (s : nat) : Prop :=
  is_Some (snapshot_weightings_objective nw !! s) ∧
  (generators nw ≠ ∅ → has_row (generators_t nw !! "p"%string) s) ∧
  (storage_units nw ≠ ∅ →
     has_row (storage_units_t nw !! "p_dispatch"%string) s ∧
     has_row (storage_units_t nw !! "p_store"%string) s ∧
     (is_Some (storage_units_t nw !! "spill"%string) →
      has_row (storage_units_t nw !! "spill"%string) s)).


(** * Properties *)

(** ** Strings *)

Lemma append_nil (b : string) : (EmptyString +:+ b)%string = b.
Proof. reflexivity. Qed.

Lemma append_cons (c : ascii) (a b : string) :
  (String c a +:+ b)%string = String c (a +:+ b).
Proof. reflexivity. Qed.

Lemma prefix_spec (needle hay : string) :
  String.prefix needle hay = true ↔ ∃ post, hay = (needle +:+ post)%string.
Proof.
  revert hay. induction needle as [|a needle IH]; intros hay.
  - destruct hay; simpl; split; eauto.
  - destruct hay as [|b hay]; simpl.
    + split; [discriminate | intros [post H]; discriminate].
    + destruct (Ascii.ascii_dec a b) as [->|Hab].
      * rewrite IH. split; intros [post H]; exists post;
          rewrite append_cons in *; congruence.
      * split; [discriminate |].
        intros [post H]. rewrite append_cons in H. congruence.
Qed.

Lemma contains_nil (needle : string) :
  contains needle EmptyString = String.prefix needle EmptyString.
Proof. simpl. apply orb_false_r. Qed.

Lemma contains_cons (needle : string) (c : ascii) (hay : string) :
  contains needle (String c hay)
  = String.prefix needle (String c hay) || contains needle hay.
Proof. reflexivity. Qed.

Lemma contains_spec (needle hay : string) :
  contains needle hay = true ↔ is_substring needle hay.
Proof.
  induction hay as [|c hay IH].
  - rewrite contains_nil, prefix_spec. split.
    + intros [post H]. by exists EmptyString, post.
    + intros ([|c pre] & post & H); [eauto | discriminate].
  - rewrite contains_cons, orb_true_iff, prefix_spec, IH. split.
    + intros [[post H] | (pre & post & H)].
      * by exists EmptyString, post.
      * exists (String c pre), post. by rewrite append_cons, H.
    + intros ([|c' pre] & post & H).
      * left. eauto.
      * right. exists pre, post. rewrite append_cons in H. congruence.
Qed.




(** ** Numbers *)

Lemma py_max_Qmax (a b : Q) : (py_max a b == Qmax a b)%Q.
Proof.
  unfold py_max. destruct (Qlt_le_dec a b) as [H|H].
  - symmetry. apply Q.max_r. by apply Qlt_le_weak.
  - symmetry. by apply Q.max_l.
Qed.

Lemma py_max_ge_l (a b : Q) : (a <= py_max a b)%Q.
Proof. unfold py_max. destruct (Qlt_le_dec a b); lra. Qed.

Lemma py_max_ge_r (a b : Q) : (b <= py_max a b)%Q.
Proof. unfold py_max. destruct (Qlt_le_dec a b); lra. Qed.

Lemma py_max_cases (a b : Q) : py_max a b = a ∨ py_max a b = b.
Proof. unfold py_max. destruct (Qlt_le_dec a b); auto. Qed.

Lemma Qmax_cases (a b : Q) : Qmax a b = a ∨ Qmax a b = b.
Proof.
  unfold Qmax, GenericMinMax.gmax. destruct (a ?= b)%Q; auto.
Qed.

Lemma Qmax_ge_l (a b : Q) : (a <= Qmax a b)%Q.
Proof. apply Q.le_max_l. Qed.

Lemma Qmax_ge_r (a b : Q) : (b <= Qmax a b)%Q.
Proof. apply Q.le_max_r. Qed.

(** ** Peak demand *)

Lemma series_max_cons (s : nat) (idx : list nat) (column : gmap nat Q) :
  series_max (s :: idx) column =
  match column !! s, series_max idx column with
  | None, acc => acc
  | Some v, None => Some v
  | Some v, Some m => Some (Qmax v m)
  end.
Proof. reflexivity. Qed.

Lemma omap_cons_lookup (s : nat) (idx : list nat) (column : gmap nat Q) :
  omap (λ s, column !! s) (s :: idx) =
  match column !! s with
  | Some v => v :: omap (λ s, column !! s) idx
  | None => omap (λ s, column !! s) idx
  end.
Proof. reflexivity. Qed.

Lemma series_max_None (idx : list nat) (column : gmap nat Q) :
  series_max idx column = None → omap (λ s, column !! s) idx = [].
Proof.
  induction idx as [|s idx IH]; [done |].
  rewrite series_max_cons, omap_cons_lookup.
  destruct (column !! s) as [v|]; [|done].
  destruct (series_max idx column); discriminate.
Qed.

Lemma series_max_Some (idx : list nat) (column : gmap nat Q) (m : Q) :
  series_max idx column = Some m →
  m ∈ omap (λ s, column !! s) idx ∧
  ∀ v, v ∈ omap (λ s, column !! s) idx → (v <= m)%Q.
Proof.
  revert m. induction idx as [|s idx IH]; intros m; [discriminate |].
  rewrite series_max_cons, omap_cons_lookup.
  destruct (column !! s) as [v|]; [|by apply IH].
  destruct (series_max idx column) as [m'|] eqn:E.
  - intros [= <-]. destruct (IH m' eq_refl) as [Hin Hub]. split.
    + destruct (Qmax_cases v m') as [-> | ->]; [left | by right].
    + intros w [-> | Hw]%elem_of_cons; [apply Qmax_ge_l |].
      pose proof (Hub w Hw). pose proof (Qmax_ge_r v m'). lra.
  - intros [= <-]. rewrite (series_max_None _ _ E). split; [left |].
    intros w [-> | Hw]%elem_of_cons; [lra | by apply elem_of_nil in Hw].
Qed.

Lemma column_max_None (nw : Network) (name : string) :
  column_max (loads_t_p_set nw) name = None → load_values nw name = [].
Proof.
  unfold column_max, load_values.
  destruct (tf_columns (loads_t_p_set nw) !! name); simpl; [|done].
  apply series_max_None.
Qed.

Lemma column_max_Some (nw : Network) (name : string) (m : Q) :
  column_max (loads_t_p_set nw) name = Some m →
  m ∈ load_values nw name ∧ ∀ v, v ∈ load_values nw name → (v <= m)%Q.
Proof.
  unfold column_max, load_values.
  destruct (tf_columns (loads_t_p_set nw) !! name); simpl; [|discriminate].
  apply series_max_Some.
Qed.

Lemma demand_loop (nw : Network) (bus : string) (rows : list (string * Load.t))
    (acc : Q) :
  let r := fold_left (demand_step nw bus) rows acc in
  (acc <= r)%Q ∧
  (∀ v, v ∈ rows ≫= values_at nw bus → (v <= r)%Q) ∧
  (r = acc ∨ r ∈ rows ≫= values_at nw bus).
Proof.
  revert acc. induction rows as [|[name load] rows IH]; intros acc.
  - simpl. split; [lra |]. split; [|by left].
    intros v Hv. by apply elem_of_nil in Hv.
  - cbn [fold_left]. cbv zeta. rewrite bind_cons.
    set (acc' := demand_step nw bus acc (name, load)).
    destruct (IH acc') as (Hle & Hub & Hin).
    assert (Hstep : (acc <= acc')%Q ∧
                    (∀ v, v ∈ values_at nw bus (name, load) → (v <= acc')%Q) ∧
                    (acc' = acc ∨ acc' ∈ values_at nw bus (name, load))).
    { subst acc'. unfold demand_step, values_at. simpl.
      case_bool_decide.
      - destruct (column_max (loads_t_p_set nw) name) as [m|] eqn:E.
        + destruct (column_max_Some _ _ _ E) as [Hm Hmub].
          split; [apply py_max_ge_l |]. split.
          * intros v Hv. pose proof (Hmub v Hv). pose proof (py_max_ge_r acc m). lra.
          * destruct (py_max_cases acc m) as [-> | ->]; auto.
        + rewrite (column_max_None _ _ E). split; [lra |]. split; [|by left].
          intros v Hv. by apply elem_of_nil in Hv.
      - split; [lra |]. split; [|by left].
        intros v Hv. by apply elem_of_nil in Hv. }
    destruct Hstep as (Hle' & Hub' & Hin').
    split; [lra |]. split.
    + intros v [Hv | Hv]%elem_of_app; [|by apply Hub].
      pose proof (Hub' v Hv). lra.
    + destruct Hin as [-> | Hin]; [|right; apply elem_of_app; by right].
      destruct Hin' as [-> | Hin']; [by left |].
      right. apply elem_of_app. by left.
Qed.

Lemma maximum_or_0_spec (l : list Q) :
  l ≠ [] →
  maximum_or_0 l ∈ l ∧ ∀ v, v ∈ l → (v <= maximum_or_0 l)%Q.
Proof.
  destruct l as [|x l]; [done | intros _]. simpl. revert x.
  induction l as [|y l IH]; intros x; simpl.
  - split; [left |]. intros v Hv%list_elem_of_singleton. subst. lra.
  - destruct (IH x) as [Hin Hub]. split.
    + destruct (Qmax_cases y (foldr Qmax x l)) as [-> | ->].
      * right; left.
      * apply elem_of_cons in Hin as [Hin | Hin]; [|right; by right].
        rewrite Hin. left.
    + intros v Hv.
      pose proof (Qmax_ge_l y (foldr Qmax x l)).
      pose proof (Qmax_ge_r y (foldr Qmax x l)).
      apply elem_of_cons in Hv as [-> | [-> | Hv]%elem_of_cons].
      * pose proof (Hub x ltac:(left)). lra.
      * lra.
      * pose proof (Hub v ltac:(by right)). lra.
Qed.

(** The loop's result is the specification's peak clamped at 0 from below. *)
Lemma bus_demand_attached (nw : Network) (bus : string) :
  (bus_demand nw bus == Qmax 0 (maximum_or_0 (attached_values nw bus)))%Q.
Proof.
  unfold bus_demand, attached_values.
  destruct (demand_loop nw bus (map_to_list (loads nw)) 0) as (Hle & Hub & Hin).
  simpl in *.
  set (r := fold_left (demand_step nw bus) (map_to_list (loads nw)) 0%Q) in *.
  set (l := map_to_list (loads nw) ≫= values_at nw bus) in *.
  destruct (decide (l = [])) as [Hl | Hl].
  - rewrite Hl in *. destruct Hin as [-> | Hin]; [|by apply elem_of_nil in Hin].
    simpl. symmetry. apply Q.max_l. lra.
  - destruct (maximum_or_0_spec l Hl) as [Hm Hmub].
    pose proof (Hub _ Hm).
    destruct (Q.max_spec 0 (maximum_or_0 l)) as [[? ->] | [? ->]].
    + destruct Hin as [Hin | Hin]; [rewrite Hin in *; lra |].
      pose proof (Hmub _ Hin). lra.
    + destruct Hin as [Hin | Hin]; [rewrite Hin; lra |].
      pose proof (Hmub _ Hin). lra.
Qed.



Lemma insert_loop_lookup {V} (f : string → V) (l : list string)
    (d : gmap string V) (b : string) :
  fold_left (λ d bus, <[bus := f bus]> d) l d !! b
  = if decide (b ∈ l) then Some (f b) else d !! b.
Proof.
  revert d. induction l as [|x l IH]; intros d.
  - destruct (decide (b ∈ [])) as [H%elem_of_nil | _]; done.
  - cbn [fold_left]. rewrite IH.
    destruct (decide (b ∈ l)) as [Hl | Hl];
      destruct (decide (b ∈ x :: l)) as [Hxl | Hxl].
    + done.
    + exfalso. apply Hxl. by right.
    + apply elem_of_cons in Hxl as [-> | ?]; [|done].
      by rewrite lookup_insert_eq.
    + rewrite lookup_insert_ne; [done |].
      intros ->. apply Hxl. left.
Qed.

Lemma bus_max_demand_lookup (nw : Network) (b : string) :
  bus_max_demand nw !! b
  = if decide (b ∈ buses nw) then Some (bus_demand nw b) else None.
Proof.
  unfold bus_max_demand. rewrite insert_loop_lookup, lookup_empty.
  destruct (decide (b ∈ buses nw)) as [H | H].
  - by rewrite decide_True by (by apply elem_of_elements).
  - by rewrite decide_False by (by rewrite elem_of_elements).
Qed.

(** [bus_max_demand.get(bus, 0)] is the specification's peak demand, clamped
    at 0 from below. *)
Lemma demand_get_peak (nw : Network) (b : string) :
  (default 0 (bus_max_demand nw !! b) == Qmax 0 (peakDemand nw b))%Q.
Proof.
  rewrite bus_max_demand_lookup. unfold peakDemand.
  destruct (decide (b ∈ buses nw)); simpl.
  - apply bus_demand_attached.
  - symmetry. apply Q.max_l. lra.
Qed.

Lemma demand_get_nonneg (nw : Network) (b : string) :
  (0 <= default 0 (bus_max_demand nw !! b))%Q.
Proof. rewrite demand_get_peak. apply Qmax_ge_l. Qed.

(** The capacity the code assigns, in the specification's terms. *)
Lemma required_capacity_peak (nw : Network) (row : Line.t) :
  (required_capacity (bus_max_demand nw) row
   == Qmax (3 * Qmax (peakDemand nw (Line.bus0 row))
                     (peakDemand nw (Line.bus1 row))) 1000)%Q.
Proof.
  unfold required_capacity, safety_factor.
  rewrite !py_max_Qmax.
  rewrite (demand_get_peak nw (Line.bus0 row)), (demand_get_peak nw (Line.bus1 row)).
  generalize (peakDemand nw (Line.bus0 row)) (peakDemand nw (Line.bus1 row)).
  intros p0 p1.
  pose proof (Q.max_spec 0 p0) as H0. set (a0 := Qmax 0 p0) in *. clearbody a0.
  pose proof (Q.max_spec 0 p1) as H1. set (a1 := Qmax 0 p1) in *. clearbody a1.
  pose proof (Q.max_spec a0 a1) as H2. set (m := Qmax a0 a1) in *. clearbody m.
  pose proof (Q.max_spec (m * 3) 1000) as H3.
  set (c := Qmax (m * 3) 1000) in *. clearbody c.
  pose proof (Q.max_spec p0 p1) as H4. set (q := Qmax p0 p1) in *. clearbody q.
  pose proof (Q.max_spec (3 * q) 1000) as H5.
  set (c' := Qmax (3 * q) 1000) in *. clearbody c'.
  destruct H0 as [[? ?] | [? ?]], H1 as [[? ?] | [? ?]],
           H2 as [[? ?] | [? ?]], H3 as [[? ?] | [? ?]],
           H4 as [[? ?] | [? ?]], H5 as [[? ?] | [? ?]]; lra.
Qed.

Lemma required_capacity_floor (d : gmap string Q) (row : Line.t) :
  (1000 <= required_capacity d row)%Q.
Proof. unfold required_capacity. apply py_max_ge_r. Qed.


Lemma required_capacity_set_s_nom (d : gmap string Q) (v : Q) (row : Line.t) :
  required_capacity d (Line.set_s_nom v row) = required_capacity d row.
Proof. reflexivity. Qed.

(** ** The loop of the Capacity Fixer *)

Lemma elem_of_index {A} (table : gmap string A) (name : string) :
  name ∈ index table ↔ is_Some (table !! name).
Proof.
  unfold index. rewrite list_elem_of_fmap. split.
  - intros ([k v] & -> & H%elem_of_map_to_list). by exists v.
  - intros [v H]. exists (name, v). split; [done |].
    by apply elem_of_map_to_list.
Qed.

Lemma elem_of_filter_bool {A} (f : A → bool) (l : list A) (x : A) :
  x ∈ List.filter f l ↔ x ∈ l ∧ f x = true.
Proof. rewrite !list_elem_of_In. apply filter_In. Qed.

Lemma fix_line_Some (d : gmap string Q) (nw : Network) (x : string)
    (row : Line.t) :
  lines nw !! x = Some row →
  fix_line d nw x
  = Some (set_lines
            (<[x := Line.set_s_nom (required_capacity d row) row]> (lines nw))
            (Some (<[x := false]> (flag_column nw))) nw).
Proof.
  intros H. unfold fix_line, flag_column. rewrite H. simpl.
  destruct (lines_s_nom_extendable nw) as [c|]; [done |].
  do 3 f_equal. rewrite fmap_insert. apply insert_insert_eq.
Qed.

Lemma fix_loop_spec (d : gmap string Q) (artificial : list string)
    (nw : Network) :
  (∀ x, x ∈ artificial → is_Some (lines nw !! x)) →
  ∃ L E,
    for_each (fix_line d) artificial nw = Some (set_lines L E nw) ∧
    (∀ n, L !! n = fixed_row d artificial n <$> lines nw !! n) ∧
    (artificial = [] → E = lines_s_nom_extendable nw) ∧
    (artificial ≠ [] →
     ∃ c, E = Some c ∧
          ∀ n, c !! n = if bool_decide (n ∈ artificial) then Some false
                        else flag_column nw !! n).
Proof.
  revert nw. induction artificial as [|x l IH]; intros nw Hdom.
  - exists (lines nw), (lines_s_nom_extendable nw). split; [by destruct nw |].
    split; [|done]. intros n. unfold fixed_row.
    rewrite bool_decide_eq_false_2 by apply not_elem_of_nil.
    by destruct (lines nw !! n).
  - destruct (Hdom x ltac:(left)) as [row Hrow].
    cbn [for_each]. rewrite (fix_line_Some _ _ _ _ Hrow). simpl.
    set (nw1 := set_lines _ _ nw).
    destruct (IH nw1) as (L & E & Hrun & HL & HE0 & HE1).
    { intros y Hy. subst nw1. simpl.
      destruct (decide (x = y)) as [-> | Hxy].
      - rewrite lookup_insert_eq. eauto.
      - rewrite lookup_insert_ne by done. apply Hdom. by right. }
    exists L, E. split; [by rewrite Hrun |]. split; [|split; [done |]].
    + intros n. rewrite HL. subst nw1. simpl. unfold fixed_row.
      destruct (decide (x = n)) as [-> | Hxn].
      * rewrite lookup_insert_eq, Hrow. simpl.
        rewrite (bool_decide_eq_true_2 (n ∈ n :: l)) by left.
        by case_bool_decide.
      * rewrite lookup_insert_ne by done.
        destruct (lines nw !! n) as [r|]; [simpl | done].
        destruct (decide (n ∈ l)) as [Hl | Hl].
        -- rewrite !bool_decide_eq_true_2; [done | by right | done].
        -- rewrite !bool_decide_eq_false_2; [done | | done].
           intros [-> | ?]%elem_of_cons; done.
    + intros _. destruct l as [|y l'].
      * exists (<[x := false]> (flag_column nw)). split; [by apply HE0 |].
        intros n. destruct (decide (x = n)) as [-> | Hxn].
        -- rewrite lookup_insert_eq. by rewrite bool_decide_eq_true_2 by left.
        -- rewrite lookup_insert_ne by done.
           rewrite bool_decide_eq_false_2; [done |].
           by intros ->%list_elem_of_singleton.
      * destruct (HE1 ltac:(done)) as (c & -> & Hc). exists c. split; [done |].
        intros n. rewrite Hc. subst nw1. unfold flag_column at 1. simpl.
        destruct (decide (n ∈ y :: l')) as [Hl | Hl].
        -- rewrite !bool_decide_eq_true_2; [done | by right | done].
        -- rewrite (bool_decide_eq_false_2 (n ∈ y :: l')) by done.
           destruct (decide (x = n)) as [-> | Hxn].
           ++ rewrite lookup_insert_eq. by rewrite bool_decide_eq_true_2 by left.
           ++ rewrite lookup_insert_ne by done.
              rewrite bool_decide_eq_false_2; [done |].
              intros [-> | ?]%elem_of_cons; done.
Qed.

(** ** Detection of the synthetic lines *)

Lemma keyword_match_spec (line : string) :
  keyword_match line = true
  ↔ ∃ keyword, keyword ∈ keywords ∧ is_substring keyword (lower line).
Proof.
  unfold keyword_match. rewrite existsb_exists. split.
  - intros (k & Hk%list_elem_of_In & H%contains_spec). eauto.
  - intros (k & Hk%list_elem_of_In & H%contains_spec). eauto.
Qed.

Lemma elem_of_keyword_lines (nw : Network) (x : string) :
  x ∈ keyword_lines nw ↔ is_Some (lines nw !! x) ∧ keyword_match x = true.
Proof. unfold keyword_lines. by rewrite elem_of_filter_bool, elem_of_index. Qed.

Lemma elem_of_zero_capacity_lines (nw : Network) (x : string) :
  x ∈ zero_capacity_lines nw
  ↔ ∃ row, lines nw !! x = Some row ∧ (Line.s_nom row == 0)%Q.
Proof.
  unfold zero_capacity_lines. rewrite elem_of_index. split.
  - intros [row [H HP]%map_lookup_filter_Some]. exists row. split; [done |].
    by apply Qeq_bool_iff.
  - intros (row & H & HP). exists row. apply map_lookup_filter_Some.
    split; [done |]. by apply Qeq_bool_iff.
Qed.

Lemma artificial_lines_cases (nw : Network) :
  (keyword_lines nw ≠ [] ∧ artificial_lines nw = keyword_lines nw) ∨
  (keyword_lines nw = [] ∧ artificial_lines nw = zero_capacity_lines nw).
Proof.
  unfold artificial_lines. fold (keyword_lines nw).
  destruct (keyword_lines nw) as [|k l]; [right | left; done].
  by destruct (zero_capacity_lines nw).
Qed.

Lemma artificial_lines_dom (nw : Network) (x : string) :
  x ∈ artificial_lines nw → is_Some (lines nw !! x).
Proof.
  destruct (artificial_lines_cases nw) as [[_ ->] | [_ ->]].
  - by intros [H _]%elem_of_keyword_lines.
  - intros (row & H & _)%elem_of_zero_capacity_lines. eauto.
Qed.

Lemma empty_list_elem_of {A} (l : list A) : (∀ x, x ∉ l) → l = [].
Proof. destruct l as [|x l]; [done |]. intros H. destruct (H x). left. Qed.

(** ** The Capacity Fixer as a whole *)

Lemma fix_spec (nw : Network) :
  ∃ L E,
    fix_artificial_lines_reasonable nw = Some (set_lines L E nw) ∧
    (∀ n, L !! n
          = fixed_row (bus_max_demand nw) (artificial_lines nw) n <$> lines nw !! n) ∧
    (artificial_lines nw = [] → E = lines_s_nom_extendable nw) ∧
    (artificial_lines nw ≠ [] →
     ∃ c, E = Some c ∧
          ∀ n, c !! n = if bool_decide (n ∈ artificial_lines nw) then Some false
                        else flag_column nw !! n).
Proof.
  unfold fix_artificial_lines_reasonable.
  apply fix_loop_spec, artificial_lines_dom.
Qed.

Lemma set_lines_id (nw : Network) :
  set_lines (lines nw) (lines_s_nom_extendable nw) nw = nw.
Proof. by destruct nw. Qed.

Lemma fix_no_synthetic (nw : Network) :
  artificial_lines nw = [] → fix_artificial_lines_reasonable nw = Some nw.
Proof. unfold fix_artificial_lines_reasonable. by intros ->. Qed.

(** What one run does to a synthetic line. *)
Lemma fix_synthetic_line (nw : Network) :
  ∃ nw',
    fix_artificial_lines_reasonable nw = Some nw' ∧
    ∀ line, line ∈ artificial_lines nw →
      ∃ row c,
        lines nw !! line = Some row ∧
        lines nw' !! line
        = Some (Line.set_s_nom (required_capacity (bus_max_demand nw) row) row) ∧
        lines_s_nom_extendable nw' = Some c ∧
        c !! line = Some false.
Proof.
  destruct (fix_spec nw) as (L & E & Hfix & HL & _ & HE).
  exists (set_lines L E nw). split; [done |]. intros line Hline.
  destruct (artificial_lines_dom nw line Hline) as [row Hrow].
  destruct HE as (c & -> & Hc).
  { intros Hnil. rewrite Hnil in Hline. by apply elem_of_nil in Hline. }
  exists row, c. split; [done |]. simpl. split; [|split; [done |]].
  - rewrite HL, Hrow. simpl. unfold fixed_row.
    by rewrite bool_decide_eq_true_2.
  - rewrite Hc. by rewrite bool_decide_eq_true_2.
Qed.

(** Detection on the repaired network. *)
Lemma fixed_row_zero (d : gmap string Q) (A : list string) (n : string)
    (row : Line.t) :
  (Line.s_nom (fixed_row d A n row) == 0)%Q ↔ (n ∉ A) ∧ (Line.s_nom row == 0)%Q.
Proof.
  unfold fixed_row. case_bool_decide as Hn; simpl.
  - pose proof (required_capacity_floor d row). split; [lra | tauto].
  - tauto.
Qed.

Section after_fix.
Context (nw : Network) (L : gmap string Line.t) (E : option (gmap string bool)).
Context (HL : ∀ n, L !! n
                   = fixed_row (bus_max_demand nw) (artificial_lines nw) n
                     <$> (lines nw !! n)).

Lemma keyword_lines_after (x : string) :
  x ∈ keyword_lines (set_lines L E nw) ↔ x ∈ keyword_lines nw.
Proof. rewrite !elem_of_keyword_lines. simpl. by rewrite HL, fmap_is_Some. Qed.

Lemma zero_capacity_lines_after (x : string) :
  x ∈ zero_capacity_lines (set_lines L E nw)
  ↔ x ∈ zero_capacity_lines nw ∧ x ∉ artificial_lines nw.
Proof.
  rewrite !elem_of_zero_capacity_lines. simpl. rewrite HL. split.
  - intros (row' & Hrow' & Hz).
    destruct (lines nw !! x) as [row|]; [|discriminate].
    injection Hrow' as <-. apply fixed_row_zero in Hz as [Hx Hz]. eauto.
  - intros [(row & -> & Hz) Hx]. eexists. split; [done |].
    by apply fixed_row_zero.
Qed.

Lemma artificial_lines_after :
  (keyword_lines nw ≠ [] ∧
   ∀ x, x ∈ artificial_lines (set_lines L E nw) ↔ x ∈ artificial_lines nw) ∨
  (keyword_lines nw = [] ∧ artificial_lines (set_lines L E nw) = []).
Proof.
  destruct (artificial_lines_cases nw) as [[HK HA] | [HK HA]].
  - left. split; [done |]. intros x. rewrite HA.
    destruct (artificial_lines_cases (set_lines L E nw)) as [[_ ->] | [HK1 _]].
    + apply keyword_lines_after.
    + destruct (keyword_lines nw) as [|k K] eqn:EK; [done |].
      assert (k ∈ keyword_lines (set_lines L E nw)) as Hk.
      { apply keyword_lines_after. rewrite EK. left. }
      rewrite HK1 in Hk. by apply elem_of_nil in Hk.
  - right. split; [done |].
    destruct (artificial_lines_cases (set_lines L E nw)) as [[HK1 _] | [_ ->]].
    + destruct HK1. apply empty_list_elem_of. intros x.
      rewrite keyword_lines_after, HK. apply not_elem_of_nil.
    + apply empty_list_elem_of. intros x.
      rewrite zero_capacity_lines_after, HA. tauto.
Qed.

End after_fix.

Lemma fixed_row_twice (d : gmap string Q) (A A' : list string) (n : string)
    (row : Line.t) :
  (n ∈ A' → n ∈ A) →
  fixed_row d A' n (fixed_row d A n row) = fixed_row d A n row.
Proof.
  intros H. unfold fixed_row at 1. case_bool_decide as Hn; [|done].
  unfold fixed_row. rewrite bool_decide_eq_true_2 by auto.
  by rewrite required_capacity_set_s_nom.
Qed.

Lemma fix_twice (nw nw1 : Network) :
  fix_artificial_lines_reasonable nw = Some nw1 →
  fix_artificial_lines_reasonable nw1 = Some nw1.
Proof.
  destruct (fix_spec nw) as (L & E & Hfix & HL & HE0 & HE1).
  rewrite Hfix. intros [= <-].
  destruct (artificial_lines_after nw L E HL) as [[HK Hsame] | [_ Hnil]];
    [|by apply fix_no_synthetic].
  assert (artificial_lines nw ≠ []) as HA.
  { destruct (artificial_lines_cases nw) as [[_ ->] | [? _]]; done. }
  assert (artificial_lines (set_lines L E nw) ≠ []) as HA1.
  { intros Hnil. destruct (artificial_lines nw) as [|a A] eqn:EA; [done |].
    assert (a ∈ artificial_lines (set_lines L E nw)) as Ha
      by (apply Hsame; left).
    rewrite Hnil in Ha. by apply elem_of_nil in Ha. }
  destruct (fix_spec (set_lines L E nw)) as (L1 & E1 & Hfix1 & HL1 & _ & HE11).
  rewrite Hfix1. f_equal.
  destruct (HE1 HA) as (c & -> & Hc). destruct (HE11 HA1) as (c1 & -> & Hc1).
  assert (L1 = L) as ->.
  { apply map_eq. intros n. rewrite HL1. simpl. rewrite HL.
    destruct (lines nw !! n) as [row|]; [simpl | done].
    f_equal. apply fixed_row_twice. apply Hsame. }
  assert (c1 = c) as ->; [|done].
  apply map_eq. intros n. rewrite Hc1, Hc. unfold flag_column. simpl.
  rewrite Hc.
  destruct (decide (n ∈ artificial_lines nw)) as [Hn | Hn].
  - rewrite !bool_decide_eq_true_2; [done | done | by apply Hsame].
  - rewrite !bool_decide_eq_false_2; [done | done | by rewrite Hsame].
Qed.

(** ** Claims about the Capacity Fixer *)



(** C5.  The Capacity Fixer is idempotent: a second run on the repaired
    network succeeds and returns it unchanged, so every capacity and flag is
    what the first run left; the second run detects no line the first run
    did not detect; and the capacity a detected line is given is a function
    of its endpoints' peak demands alone. *)
Theorem capacity_fixer_idempotent (nw : Network) :
  ∃ nw1,
    fix_artificial_lines_reasonable nw = Some nw1 ∧
    fix_artificial_lines_reasonable nw1 = Some nw1 ∧
    (∀ line, line ∈ artificial_lines nw1 → line ∈ artificial_lines nw) ∧
    (∀ line, line ∈ artificial_lines nw →
       ∃ row1, lines nw1 !! line = Some row1 ∧
         (Line.s_nom row1
          == Qmax (3 * Qmax (peakDemand nw (Line.bus0 row1))
                            (peakDemand nw (Line.bus1 row1))) 1000)%Q).
Proof.
  destruct (fix_synthetic_line nw) as (nw1 & Hfix & Hall).
  exists nw1. split; [done |]. split; [by apply (fix_twice nw) |]. split.
  - destruct (fix_spec nw) as (L & E & Hfix' & HL & _).
    rewrite Hfix in Hfix'. injection Hfix' as ->. intros line.
    destruct (artificial_lines_after nw L E HL) as [[_ Hsame] | [_ ->]].
    + apply Hsame.
    + by intros ?%elem_of_nil.
  - intros line Hline.
    destruct (Hall line Hline) as (row & c & Hrow & Hrow1 & _).
    exists (Line.set_s_nom (required_capacity (bus_max_demand nw) row) row).
    split; [done |]. simpl. apply required_capacity_peak.
Qed.

Lemma capacity_fixer_idempotent_witness :
  ∃ nw1,
    fix_artificial_lines_reasonable scenario_1 = Some nw1 ∧
    fix_artificial_lines_reasonable nw1 = Some nw1 ∧
    ("A<->B"%string ∈ artificial_lines nw1 →
     "A<->B"%string ∈ artificial_lines scenario_1).
Proof.
  destruct (capacity_fixer_idempotent scenario_1) as (nw1 & H1 & H2 & H3 & _).
  exists nw1. split; [done |]. split; [done |]. apply H3.
Defined.

(** C6.  Detection is a two-stage rule.  A line matches by keyword when its
    lower-cased name contains one of the reserved keywords.  When some line
    matches by keyword, the synthetic lines are exactly the lines that do;
    when none does, they are exactly the lines of capacity zero; and when
    that finds none either, the fix returns the network as it was. *)
Theorem synthetic_line_detection (nw : Network) :
  (∀ line, keyword_match line = true
           ↔ ∃ keyword, keyword ∈ ["new"; "<->"; "artificial"]%string ∧
                        is_substring keyword (lower line)) ∧
  ((∃ l, is_Some (lines nw !! l) ∧ keyword_match l = true) →
   ∀ line, line ∈ artificial_lines nw
           ↔ is_Some (lines nw !! line) ∧ keyword_match line = true) ∧
  ((∀ l, is_Some (lines nw !! l) → keyword_match l = false) →
   ∀ line, line ∈ artificial_lines nw
           ↔ ∃ row, lines nw !! line = Some row ∧ (Line.s_nom row == 0)%Q) ∧
  ((∀ l row, lines nw !! l = Some row →
             keyword_match l = false ∧ ¬ (Line.s_nom row == 0)%Q) →
   artificial_lines nw = [] ∧ fix_artificial_lines_reasonable nw = Some nw).
Proof.
  split; [apply keyword_match_spec |]. split; [|split].
  - intros (l & Hl & Hk) line.
    destruct (artificial_lines_cases nw) as [[_ ->] | [HK _]].
    + apply elem_of_keyword_lines.
    + assert (l ∈ keyword_lines nw) as H by by apply elem_of_keyword_lines.
      rewrite HK in H. by apply elem_of_nil in H.
  - intros Hno line.
    destruct (artificial_lines_cases nw) as [[HK _] | [_ ->]].
    + destruct (keyword_lines nw) as [|k K] eqn:EK; [done |].
      assert (k ∈ keyword_lines nw) as [Hk1 Hk2]%elem_of_keyword_lines
        by (rewrite EK; left).
      rewrite (Hno k Hk1) in Hk2. discriminate.
    + apply elem_of_zero_capacity_lines.
  - intros Hno.
    assert (artificial_lines nw = []) as Hnil; [|by auto using fix_no_synthetic].
    apply empty_list_elem_of. intros x Hx.
    destruct (artificial_lines_cases nw) as [[_ HA] | [_ HA]]; rewrite HA in Hx.
    + apply elem_of_keyword_lines in Hx as [[row Hrow] Hk].
      destruct (Hno x row Hrow) as [Hk' _]. congruence.
    + apply elem_of_zero_capacity_lines in Hx as (row & Hrow & Hz).
      destruct (Hno x row Hrow) as [_ Hz']. done.
Qed.

Lemma synthetic_line_detection_witness :
  ("Artificial 1"%string ∈ artificial_lines oversized_network
   ↔ is_Some (lines oversized_network !! "Artificial 1"%string) ∧
     keyword_match "Artificial 1" = true) ∧
  ("1"%string ∈ artificial_lines oversized_network
   ↔ is_Some (lines oversized_network !! "1"%string) ∧
     keyword_match "1" = true).
Proof.
  destruct (synthetic_line_detection oversized_network) as (_ & H & _).
  assert (∃ l, is_Some (lines oversized_network !! l) ∧ keyword_match l = true)
    as Hex.
  { exists "Artificial 1"%string. vm_compute. eauto. }
  split; apply (H Hex).
Defined.

(** C9.  The capacity of a detected line is overwritten whatever it was: the
    new value is computed from the endpoints alone, so two networks that
    differ only in that line's prior capacity give it the same capacity; and
    on [oversized_network] the line found by keyword, rated 5000, comes out
    at max(3 × 500, 1000) = 1500, below its prior capacity. *)
Theorem capacity_fixer_overwrites (nw : Network) (line : string) :
  (line ∈ artificial_lines nw →
   ∃ nw' row row',
     fix_artificial_lines_reasonable nw = Some nw' ∧
     lines nw !! line = Some row ∧
     lines nw' !! line = Some row' ∧
     Line.s_nom row'
     = py_max (py_max (default 0%Q (bus_max_demand nw !! Line.bus0 row))
                      (default 0%Q (bus_max_demand nw !! Line.bus1 row)) * 3)
              1000 ∧
     (Line.s_nom row'
      == Qmax (3 * Qmax (peakDemand nw (Line.bus0 row))
                        (peakDemand nw (Line.bus1 row))) 1000)%Q) ∧
  (∃ nw' row row',
     keyword_match "Artificial 1" = true ∧
     fix_artificial_lines_reasonable oversized_network = Some nw' ∧
     lines oversized_network !! "Artificial 1"%string = Some row ∧
     lines nw' !! "Artificial 1"%string = Some row' ∧
     (Qmax (3 * Qmax (peakDemand oversized_network (Line.bus0 row))
                     (peakDemand oversized_network (Line.bus1 row))) 1000
      < Line.s_nom row)%Q ∧
     (Line.s_nom row' < Line.s_nom row)%Q ∧
     Line.s_nom row = 5000%Q ∧ Line.s_nom row' = 1500%Q).
Proof.
  split.
  - intros Hline. destruct (fix_synthetic_line nw) as (nw' & Hfix & Hall).
    destruct (Hall line Hline) as (row & c & Hrow & Hrow' & _).
    exists nw', row, (Line.set_s_nom (required_capacity (bus_max_demand nw) row) row).
    do 3 (split; [done |]). split; [done |]. simpl.
    apply required_capacity_peak.
  - destruct (fix_synthetic_line oversized_network) as (nw' & Hfix & Hall).
    destruct (Hall "Artificial 1"%string) as (row & c & Hrow & Hrow' & _).
    { vm_compute. left. }
    exists nw', row, (Line.set_s_nom (required_capacity (bus_max_demand oversized_network) row) row).
    split; [by vm_compute |]. do 3 (split; [done |]).
    pose proof (required_capacity_peak oversized_network row) as Hp.
    assert (row = {| Line.bus0 := "A"; Line.bus1 := "B"; Line.s_nom := 5000 |})
      as Hr by (vm_compute in Hrow; congruence).
    assert (required_capacity (bus_max_demand oversized_network) row = 1500%Q)
      as Hreq by (rewrite Hr; vm_compute; reflexivity).
    rewrite Hreq in *. set (q := Qmax _ _) in *. clearbody q.
    rewrite Hr. simpl. repeat split; lra.
Qed.

Lemma capacity_fixer_overwrites_witness :
  ∃ nw' row',
    fix_artificial_lines_reasonable scenario_2 = Some nw' ∧
    lines nw' !! "new line"%string = Some row' ∧
    Line.s_nom row' = 1000%Q.
Proof.
  destruct (capacity_fixer_overwrites scenario_2 "new line") as [H _].
  destruct H as (nw' & row & row' & Hfix & Hrow & Hrow' & Hs & _).
  { vm_compute. left. }
  exists nw', row'. do 2 (split; [done |]).
  assert (row = {| Line.bus0 := "A"; Line.bus1 := "B"; Line.s_nom := 0 |})
    as Hr by (vm_compute in Hrow; congruence).
  rewrite Hs, Hr. vm_compute. reflexivity.
Defined.

(** C10.  The fix touches nothing but the capacity and the flag of the
    detected lines.  Buses, loads, load time series, generators, storage
    units, their time series, snapshots and weightings are unchanged; the
    line table keeps its rows and every row its endpoints; a line that is not
    detected keeps its row, and keeps its flag when the flag column existed.
    Where the column did not exist, it is created with every flag false if
    some line is detected, and stays absent otherwise. *)
Theorem capacity_fixer_frame (nw : Network) :
  ∃ nw',
    fix_artificial_lines_reasonable nw = Some nw' ∧
    buses nw' = buses nw ∧
    loads nw' = loads nw ∧
    loads_t_p_set nw' = loads_t_p_set nw ∧
    generators nw' = generators nw ∧
    generators_t nw' = generators_t nw ∧
    storage_units nw' = storage_units nw ∧
    storage_units_t nw' = storage_units_t nw ∧
    snapshots nw' = snapshots nw ∧
    snapshot_weightings_objective nw' = snapshot_weightings_objective nw ∧
    (∀ line, is_Some (lines nw' !! line) ↔ is_Some (lines nw !! line)) ∧
    (∀ line row row', lines nw !! line = Some row →
                      lines nw' !! line = Some row' →
                      Line.bus0 row' = Line.bus0 row ∧
                      Line.bus1 row' = Line.bus1 row) ∧
    (∀ line, line ∉ artificial_lines nw →
             lines nw' !! line = lines nw !! line) ∧
    (∀ column, lines_s_nom_extendable nw = Some column →
       ∃ column', lines_s_nom_extendable nw' = Some column' ∧
                  ∀ line, line ∉ artificial_lines nw →
                          column' !! line = column !! line) ∧
    (lines_s_nom_extendable nw = None → artificial_lines nw ≠ [] →
       ∃ column', lines_s_nom_extendable nw' = Some column' ∧
                  ∀ line, is_Some (lines nw !! line) →
                          column' !! line = Some false) ∧
    (lines_s_nom_extendable nw = None → artificial_lines nw = [] →
       lines_s_nom_extendable nw' = None).
Proof.
  destruct (fix_spec nw) as (L & E & Hfix & HL & HE0 & HE1).
  exists (set_lines L E nw). split; [done |]. do 9 (split; [done |]). simpl.
  split; [|split; [|split; [|split; [|split]]]].
  - intros line. by rewrite HL, fmap_is_Some.
  - intros line row row' Hrow. rewrite HL, Hrow. simpl. intros [= <-].
    unfold fixed_row. by case_bool_decide.
  - intros line Hline. rewrite HL. unfold fixed_row.
    rewrite bool_decide_eq_false_2 by done. by destruct (lines nw !! line).
  - intros column Hcol.
    destruct (decide (artificial_lines nw = [])) as [Hnil | Hne].
    + exists column. rewrite HE0 by done. done.
    + destruct (HE1 Hne) as (c & -> & Hc). exists c. split; [done |].
      intros line Hline. rewrite Hc, bool_decide_eq_false_2 by done.
      unfold flag_column. by rewrite Hcol.
  - intros Hcol Hne. destruct (HE1 Hne) as (c & -> & Hc). exists c.
    split; [done |]. intros line [row Hrow]. rewrite Hc.
    case_bool_decide; [done |]. unfold flag_column.
    by rewrite Hcol, lookup_fmap, Hrow.
  - intros Hcol Hnil. by rewrite HE0.
Qed.

Lemma capacity_fixer_frame_witness :
  ∃ nw' column',
    fix_artificial_lines_reasonable oversized_network = Some nw' ∧
    lines nw' !! "1"%string = lines oversized_network !! "1"%string ∧
    lines_s_nom_extendable nw' = Some column' ∧
    column' !! "1"%string = Some true.
Proof.
  destruct (capacity_fixer_frame oversized_network)
    as (nw' & Hfix & _ & _ & _ & _ & _ & _ & _ & _ & _ & _ & _ & Hrow & Hcol & _).
  assert ("1"%string ∉ artificial_lines oversized_network) as Hnot.
  { vm_compute. intros H. inversion H as [|? ? ? H']; inversion H'. }
  destruct (Hcol _ eq_refl) as (column' & Hcol' & Hflag).
  exists nw', column'. split; [done |]. split; [by apply Hrow |].
  split; [done |]. by rewrite (Hflag _ Hnot).
Defined.

(** ** The loop of the Pruner *)

Lemma without_columns_nil (frame : TimeFrame) : without_columns [] frame = frame.
Proof.
  destruct frame as [idx cols]. unfold without_columns. simpl. f_equal.
  apply map_filter_id. intros i x _. apply not_elem_of_nil.
Qed.

Lemma without_columns_cons (x : string) (l : list string) (frame : TimeFrame) :
  without_columns l (drop_column x frame) = without_columns (x :: l) frame.
Proof.
  unfold without_columns, drop_column. simpl. f_equal.
  apply map_eq. intros i. apply option_eq. intros v.
  rewrite !map_lookup_filter_Some, lookup_delete_Some, not_elem_of_cons.
  simpl. split.
  - intros [[Hx Hv] Hl]. split; [done |]. split; [|done]. by intros ->.
  - intros [Hv [Hx Hl]]. split; [|done]. split; [|done]. by intros ->.
Qed.


Lemma remove_Some (nw : Network) (x : string) :
  is_Some (generators nw !! x) →
  remove nw x
  = Some (set_generators (delete x (generators nw))
                         (drop_column x <$> generators_t nw) nw).
Proof.
  intros H. unfold remove. destruct (decide (x ∈ dom (generators nw))) as [|Hx].
  - done.
  - destruct Hx. by apply elem_of_dom.
Qed.

Lemma remove_loop_spec (l : list string) (nw : Network) :
  NoDup l →
  (∀ x, x ∈ l → is_Some (generators nw !! x)) →
  ∃ G,
    for_each remove l nw
    = Some (set_generators G (without_columns l <$> generators_t nw) nw) ∧
    ∀ n, G !! n = if bool_decide (n ∈ l) then None else generators nw !! n.
Proof.
  revert nw. induction l as [|x l IH]; intros nw Hnd Hdom.
  - exists (generators nw). split; [|done]. simpl. f_equal.
    destruct nw; unfold set_generators; simpl. f_equal.
    apply map_eq. intros attr. rewrite lookup_fmap.
    destruct (_ !! attr); simpl; [|done]. by rewrite without_columns_nil.
  - apply NoDup_cons in Hnd as [Hx Hnd].
    cbn [for_each]. rewrite remove_Some by (apply Hdom; left). simpl.
    set (nw1 := set_generators _ _ nw).
    destruct (IH nw1 Hnd) as (G & Hrun & HG).
    { intros y Hy. subst nw1. simpl. rewrite lookup_delete_ne.
      - apply Hdom. by right.
      - by intros ->. }
    exists G. split.
    + rewrite Hrun. subst nw1. unfold set_generators. simpl. do 2 f_equal.
      apply map_eq. intros attr. rewrite !lookup_fmap.
      destruct (generators_t nw !! attr); simpl; [|done].
      by rewrite without_columns_cons.
    + intros n. rewrite HG. subst nw1. simpl.
      destruct (decide (n = x)) as [-> | Hn].
      * rewrite lookup_delete_eq.
        rewrite (bool_decide_eq_true_2 (x ∈ x :: l)) by left.
        by case_bool_decide.
      * rewrite lookup_delete_ne by done.
        destruct (decide (n ∈ l)).
        -- rewrite !bool_decide_eq_true_2; [done | by right | done].
        -- rewrite !bool_decide_eq_false_2; [done | | done].
           intros [-> | ?]%elem_of_cons; done.
Qed.

Lemma NoDup_index {A} (table : gmap string A) : NoDup (index table).
Proof. apply NoDup_fst_map_to_list. Qed.

Lemma NoDup_filter_bool {A} (f : A → bool) (l : list A) :
  NoDup l → NoDup (List.filter f l).
Proof.
  induction 1 as [|x l Hx Hnd IH]; simpl; [constructor |].
  destruct (f x); [|done]. constructor; [|done].
  rewrite elem_of_filter_bool. tauto.
Qed.

Lemma elem_of_offwind_gens (nw : Network) (g : string) :
  g ∈ offwind_gens nw ↔ is_Some (generators nw !! g) ∧ offwind_match g = true.
Proof. unfold offwind_gens. by rewrite elem_of_filter_bool, elem_of_index. Qed.

Lemma remove_offshore_wind_spec (nw : Network) :
  ∃ G,
    remove_offshore_wind nw
    = Some (set_generators G (without_columns (offwind_gens nw) <$> generators_t nw) nw) ∧
    ∀ n, G !! n = if bool_decide (n ∈ offwind_gens nw) then None
                  else generators nw !! n.
Proof.
  apply remove_loop_spec.
  - apply NoDup_filter_bool, NoDup_index.
  - by intros x [H _]%elem_of_offwind_gens.
Qed.

(** ** The loop of the Normalizer *)

Lemma normalized_row_twice (name : string) (row : StorageUnit.t) :
  normalized_row name (normalized_row name row) = normalized_row name row.
Proof.
  unfold normalized_row. simpl.
  by destruct (contains "PHS" name), (contains "hydro" name).
Qed.

Lemma normalize_loop_spec (l : list string) (nw : Network) :
  (∀ x, x ∈ l → is_Some (storage_units nw !! x)) →
  ∃ U,
    for_each normalize_storage_unit l nw = Some (set_storage_units U nw) ∧
    ∀ n, U !! n = normalized_in l n <$> (storage_units nw !! n).
Proof.
  revert nw. induction l as [|x l IH]; intros nw Hdom.
  - exists (storage_units nw). split; [by destruct nw |].
    intros n. unfold normalized_in.
    rewrite bool_decide_eq_false_2 by apply not_elem_of_nil.
    by destruct (storage_units nw !! n).
  - destruct (Hdom x ltac:(left)) as [row Hrow].
    cbn [for_each]. unfold normalize_storage_unit at 2. rewrite Hrow. simpl.
    set (nw1 := set_storage_units _ nw).
    destruct (IH nw1) as (U & Hrun & HU).
    { intros y Hy. subst nw1. simpl. destruct (decide (x = y)) as [-> | Hxy].
      - rewrite lookup_insert_eq. eauto.
      - rewrite lookup_insert_ne by done. apply Hdom. by right. }
    exists U. split; [by rewrite Hrun |].
    intros n. rewrite HU. subst nw1. simpl. unfold normalized_in.
    destruct (decide (x = n)) as [-> | Hxn].
    + rewrite lookup_insert_eq, Hrow. simpl.
      rewrite (bool_decide_eq_true_2 (n ∈ n :: l)) by left.
      case_bool_decide; [|done]. by rewrite normalized_row_twice.
    + rewrite lookup_insert_ne by done.
      destruct (storage_units nw !! n) as [r|]; [simpl | done].
      destruct (decide (n ∈ l)) as [Hl | Hl].
      * rewrite !bool_decide_eq_true_2; [done | by right | done].
      * rewrite !bool_decide_eq_false_2; [done | | done].
        intros [-> | ?]%elem_of_cons; done.
Qed.

Lemma normalize_storage_units_spec (nw : Network) :
  ∃ U,
    normalize_storage_units nw = Some (set_storage_units U nw) ∧
    ∀ n, U !! n = normalized_row n <$> (storage_units nw !! n).
Proof.
  destruct (normalize_loop_spec (index (storage_units nw)) nw) as (U & Hrun & HU).
  { by intros x ?%elem_of_index. }
  exists U. split; [done |]. intros n. rewrite HU. unfold normalized_in.
  destruct (storage_units nw !! n) as [row|] eqn:Hn; [simpl | done].
  rewrite bool_decide_eq_true_2; [done |]. apply elem_of_index. eauto.
Qed.

(** ** The whole preparation *)



(** ** Claims about the Normalizer *)



(** C8.  The category match of the Normalizer is case-sensitive and
    prioritized: a unit whose name contains [PHS] gets max_hours 8; one whose
    name does not contain [PHS] but contains [hydro] gets 6; any other keeps
    its max_hours.  So a name with both [PHS] and [hydro] gives 8, and names
    with only [phs] or [Hydro] match neither and keep their value. *)
Theorem storage_category_match (nw : Network) :
  ∃ nw1,
    normalize_storage_units nw = Some nw1 ∧
    (∀ u row, storage_units nw !! u = Some row →
       ∃ row',
         storage_units nw1 !! u = Some row' ∧
         (is_substring "PHS" u → StorageUnit.max_hours row' = 8%Q) ∧
         (¬ is_substring "PHS" u → is_substring "hydro" u →
          StorageUnit.max_hours row' = 6%Q) ∧
         (¬ is_substring "PHS" u → ¬ is_substring "hydro" u →
          StorageUnit.max_hours row' = StorageUnit.max_hours row)) ∧
    (∃ nw2,
       normalize_storage_units storage_network = Some nw2 ∧
       (* before: 100, 2000, 3, 4, 5 and 7 hours *)
       StorageUnit.max_hours <$> storage_units nw2 !! "ZA0 0 PHS"%string = Some 8%Q ∧
       StorageUnit.max_hours <$> storage_units nw2 !! "ZA0 1 hydro"%string = Some 6%Q ∧
       StorageUnit.max_hours <$> storage_units nw2 !! "PHS hydro"%string = Some 8%Q ∧
       StorageUnit.max_hours <$> storage_units nw2 !! "ZA0 2 phs"%string = Some 4%Q ∧
       StorageUnit.max_hours <$> storage_units nw2 !! "ZA0 3 Hydro"%string = Some 5%Q ∧
       StorageUnit.max_hours <$> storage_units nw2 !! "ZA0 4 battery"%string = Some 7%Q).
Proof.
  destruct (normalize_storage_units_spec nw) as (U & HU & HUn).
  exists (set_storage_units U nw). split; [done |]. split.
  - intros u row Hrow. exists (normalized_row u row). simpl.
    rewrite HUn, Hrow. split; [done |]. unfold normalized_row. simpl.
    rewrite <- !contains_spec.
    destruct (contains "PHS" u), (contains "hydro" u); split_and!; try done.
    all: intros H1 H2; try done; by destruct H1.
  - destruct (normalize_storage_units_spec storage_network) as (U2 & HU2 & HUn2).
    exists (set_storage_units U2 storage_network). split; [done |]. simpl.
    rewrite !HUn2. vm_compute. repeat split.
Qed.

Lemma storage_category_match_witness :
  ∃ nw1 row',
    normalize_storage_units storage_network = Some nw1 ∧
    storage_units nw1 !! "ZA0 2 phs"%string = Some row' ∧
    StorageUnit.max_hours row' = 4%Q.
Proof.
  destruct (storage_category_match storage_network) as (nw1 & Hrun & Hall & _).
  destruct (Hall "ZA0 2 phs"%string (unit 4)) as (row' & Hrow' & _ & _ & Hkeep).
  { vm_compute. reflexivity. }
  exists nw1, row'. split; [done |]. split; [done |].
  apply Hkeep; rewrite <- contains_spec; vm_compute; discriminate.
Defined.

(** ** Claims about the Pruner *)



(** ** Sums over tables *)










(** ** The loop of the Objective Reconstructor *)

Lemma size_pos_false {A} (m : gmap string A) :
  (0 <? size m)%nat = false ↔ m = ∅.
Proof. rewrite Nat.ltb_ge, <- map_size_empty_iff. lia. Qed.

Lemma size_pos_true {A} (m : gmap string A) :
  (0 <? size m)%nat = true ↔ m ≠ ∅.
Proof.
  rewrite <- size_pos_false. destruct (0 <? size m)%nat; split; congruence.
Qed.










(** The example result tables are populated. *)
Lemma two_snapshots (P : nat → Prop) : P 0%nat → P 1%nat → ∀ s, s ∈ [0%nat; 1%nat] → P s.
Proof.
  intros H0 H1 s Hs.
  apply elem_of_cons in Hs as [-> | Hs]; [done |].
  apply elem_of_cons in Hs as [-> | Hs]; [done |].
  by apply elem_of_nil in Hs.
Qed.

Lemma one_column_covers (nw : Network) (name : string) (cells : gmap nat Q)
    (frame : option TimeFrame) :
  frame = Some (one_column name cells) →
  (∀ s, s ∈ snapshots nw → is_Some (cells !! s)) →
  frame_covers nw frame.
Proof.
  intros -> H. eexists. split; [done |]. intros s Hs. simpl.
  by apply elem_of_dom, H.
Qed.

Lemma scenario_3_populated : results_populated scenario_3.
Proof.
  split; [|split].
  - apply two_snapshots; vm_compute; eauto.
  - intros _. eapply one_column_covers; [reflexivity |].
    apply two_snapshots; vm_compute; eauto.
  - intros H. by destruct H.
Qed.


Lemma scenario_4_spill_populated : results_populated scenario_4_spill.
Proof.
  split; [|split].
  - apply two_snapshots; vm_compute; eauto.
  - intros _. eapply one_column_covers; [reflexivity |].
    apply two_snapshots; vm_compute; eauto.
  - intros _. split; [|split; [|intros _]].
    all: eapply one_column_covers; [reflexivity |].
    all: apply two_snapshots; vm_compute; eauto.
Qed.

(** ** Claims about the Objective Reconstructor *)





(** * Further properties of the preparation steps *)

(** ** The steps act on different tables *)

Lemma for_each_commute {St A} (body : St → A → option St) (h : St → St)
    (l : list A) (st : St) :
  (∀ st x, body (h st) x = h <$> body st x) →
  for_each body l (h st) = h <$> for_each body l st.
Proof.
  intros Hbody. revert st. induction l as [|x l IH]; intros st; [done |].
  cbn [for_each]. rewrite Hbody.
  destruct (body st x) as [st'|]; simpl; [apply IH | done].
Qed.

Lemma fix_set_generators (G : gmap string Generator.t)
    (T : gmap string TimeFrame) (nw : Network) :
  fix_artificial_lines_reasonable (set_generators G T nw)
  = set_generators G T <$> fix_artificial_lines_reasonable nw.
Proof.
  unfold fix_artificial_lines_reasonable.
  apply (for_each_commute (fix_line (bus_max_demand nw)) (set_generators G T)).
  intros st x. unfold fix_line. simpl. by destruct (lines st !! x).
Qed.

Lemma fix_set_storage_units (U : gmap string StorageUnit.t) (nw : Network) :
  fix_artificial_lines_reasonable (set_storage_units U nw)
  = set_storage_units U <$> fix_artificial_lines_reasonable nw.
Proof.
  unfold fix_artificial_lines_reasonable.
  apply (for_each_commute (fix_line (bus_max_demand nw)) (set_storage_units U)).
  intros st x. unfold fix_line. simpl. by destruct (lines st !! x).
Qed.

Lemma remove_set_lines (L : gmap string Line.t) (E : option (gmap string bool))
    (nw : Network) :
  remove_offshore_wind (set_lines L E nw)
  = set_lines L E <$> remove_offshore_wind nw.
Proof.
  unfold remove_offshore_wind.
  apply (for_each_commute remove (set_lines L E)).
  intros st x. unfold remove. simpl.
  by destruct (decide (x ∈ dom (generators st))).
Qed.

Lemma remove_set_storage_units (U : gmap string StorageUnit.t) (nw : Network) :
  remove_offshore_wind (set_storage_units U nw)
  = set_storage_units U <$> remove_offshore_wind nw.
Proof.
  unfold remove_offshore_wind.
  apply (for_each_commute remove (set_storage_units U)).
  intros st x. unfold remove. simpl.
  by destruct (decide (x ∈ dom (generators st))).
Qed.

Lemma normalize_set_lines (L : gmap string Line.t)
    (E : option (gmap string bool)) (nw : Network) :
  normalize_storage_units (set_lines L E nw)
  = set_lines L E <$> normalize_storage_units nw.
Proof.
  unfold normalize_storage_units.
  apply (for_each_commute normalize_storage_unit (set_lines L E)).
  intros st x. unfold normalize_storage_unit. simpl.
  by destruct (storage_units st !! x).
Qed.

Lemma normalize_set_generators (G : gmap string Generator.t)
    (T : gmap string TimeFrame) (nw : Network) :
  normalize_storage_units (set_generators G T nw)
  = set_generators G T <$> normalize_storage_units nw.
Proof.
  unfold normalize_storage_units.
  apply (for_each_commute normalize_storage_unit (set_generators G T)).
  intros st x. unfold normalize_storage_unit. simpl.
  by destruct (storage_units st !! x).
Qed.

(** The three repair steps can be run in any order: each pair commutes, and
    [create_pypsa_network] gives what the reverse order gives. *)
Theorem repair_steps_commute (nw : Network) :
  (nw1 ← fix_artificial_lines_reasonable nw; remove_offshore_wind nw1)
  = (nw1 ← remove_offshore_wind nw; fix_artificial_lines_reasonable nw1) ∧
  (nw1 ← normalize_storage_units nw; fix_artificial_lines_reasonable nw1)
  = (nw1 ← fix_artificial_lines_reasonable nw; normalize_storage_units nw1) ∧
  (nw1 ← normalize_storage_units nw; remove_offshore_wind nw1)
  = (nw1 ← remove_offshore_wind nw; normalize_storage_units nw1) ∧
  create_pypsa_network nw
  = (nw1 ← remove_offshore_wind nw;
     nw2 ← fix_artificial_lines_reasonable nw1;
     normalize_storage_units nw2).
Proof.
  destruct (fix_spec nw) as (L & E & Hfix & _).
  destruct (remove_offshore_wind_spec nw) as (G & Hrm & _).
  destruct (normalize_storage_units_spec nw) as (U & Hnorm & _).
  unfold create_pypsa_network. rewrite Hfix, Hrm, Hnorm.
  cbn [mbind option_bind].
  repeat (first [ rewrite remove_set_lines | rewrite remove_set_storage_units
                | rewrite fix_set_generators | rewrite fix_set_storage_units
                | rewrite normalize_set_lines | rewrite normalize_set_generators
                | rewrite Hfix | rewrite Hrm | rewrite Hnorm ];
          cbn [fmap option_fmap option_map mbind option_bind]).
  done.
Qed.

(** ** Each step repairs only what still shows the defect *)

Lemma normalize_twice (nw nw1 : Network) :
  normalize_storage_units nw = Some nw1 →
  normalize_storage_units nw1 = Some nw1.
Proof.
  destruct (normalize_storage_units_spec nw) as (U & HU & HUn).
  rewrite HU. intros [= <-].
  destruct (normalize_storage_units_spec (set_storage_units U nw))
    as (U' & HU' & HUn').
  rewrite HU'. f_equal. assert (U' = U) as ->; [|done].
  apply map_eq. intros n. rewrite HUn'. simpl. rewrite HUn.
  destruct (storage_units nw !! n); simpl; [|done].
  by rewrite normalized_row_twice.
Qed.



(** The Normalizer is idempotent: a second run leaves the normalized
    network as it is. *)
Theorem normalizer_idempotent (nw : Network) :
  ∃ nw1, normalize_storage_units nw = Some nw1 ∧
         normalize_storage_units nw1 = Some nw1.
Proof.
  destruct (normalize_storage_units_spec nw) as (U & HU & _).
  eexists. split; [exact HU |]. by apply (normalize_twice nw).
Qed.



(** ** What the Normalizer and the Pruner leave alone *)

(** The Normalizer changes nothing but the storage-unit table, keeps the set
    of units, and keeps each unit's bus and nominal power. *)
Theorem normalizer_frame (nw : Network) :
  ∃ nw1,
    normalize_storage_units nw = Some nw1 ∧
    nw1 = set_storage_units (storage_units nw1) nw ∧
    dom (storage_units nw1) = dom (storage_units nw) ∧
    ∀ u row row', storage_units nw !! u = Some row →
                  storage_units nw1 !! u = Some row' →
                  StorageUnit.bus row' = StorageUnit.bus row ∧
                  StorageUnit.p_nom row' = StorageUnit.p_nom row.
Proof.
  destruct (normalize_storage_units_spec nw) as (U & HU & HUn).
  exists (set_storage_units U nw). split; [done |]. split; [done |]. simpl.
  split.
  - apply set_eq. intros u. rewrite !elem_of_dom, HUn. apply fmap_is_Some.
  - intros u row row' Hrow. rewrite HUn, Hrow. by intros [= <-].
Qed.

Lemma normalizer_frame_witness :
  ∃ nw1 row',
    normalize_storage_units storage_network = Some nw1 ∧
    storage_units nw1 !! "ZA0 4 battery"%string = Some row' ∧
    StorageUnit.p_nom row' = 50%Q ∧
    lines nw1 = lines storage_network.
Proof.
  destruct (normalizer_frame storage_network) as (nw1 & Hrun & Heq & _ & Hkeep).
  assert (is_Some (storage_units nw1 !! "ZA0 4 battery"%string)) as [row' Hrow'].
  { destruct (normalize_storage_units_spec storage_network) as (U & HU & HUn).
    rewrite Hrun in HU. injection HU as ->. simpl. rewrite HUn.
    vm_compute. eauto. }
  exists nw1, row'. split; [done |]. split; [done |]. split.
  - destruct (Hkeep "ZA0 4 battery"%string (unit 7) row') as [_ ->];
      [vm_compute; reflexivity | done | reflexivity].
  - by rewrite Heq.
Defined.



(** ** Zero-capacity lines after the fix *)

(** After the fix the lines of capacity zero are exactly those that had
    capacity zero and were not detected.  When no line matches by name none
    is left; when some line matches by name, a zero-capacity line whose name
    does not match is left as it was, at capacity zero. *)
Theorem zero_capacity_after_fix (nw : Network) :
  ∃ nw1,
    fix_artificial_lines_reasonable nw = Some nw1 ∧
    (∀ x, x ∈ zero_capacity_lines nw1
          ↔ x ∈ zero_capacity_lines nw ∧ x ∉ artificial_lines nw) ∧
    (keyword_lines nw = [] → zero_capacity_lines nw1 = []) ∧
    (keyword_lines nw ≠ [] →
     ∀ x row, lines nw !! x = Some row → keyword_match x = false →
              lines nw1 !! x = Some row).
Proof.
  destruct (fix_spec nw) as (L & E & Hfix & HL & _).
  exists (set_lines L E nw). split; [done |].
  pose proof (zero_capacity_lines_after nw L E HL) as Hzero.
  split; [done |]. split.
  - intros HK. apply empty_list_elem_of. intros x.
    rewrite Hzero. destruct (artificial_lines_cases nw) as [[? _] | [_ ->]]; tauto.
  - intros HK x row Hrow Hk. simpl. rewrite HL, Hrow. simpl. unfold fixed_row.
    rewrite bool_decide_eq_false_2; [done |].
    destruct (artificial_lines_cases nw) as [[_ ->] | [? _]]; [|done].
    intros [_ ?]%elem_of_keyword_lines. congruence.
Qed.

Lemma zero_capacity_after_fix_witness :
  ∃ nw1,
    fix_artificial_lines_reasonable oversized_network = Some nw1 ∧
    lines nw1 !! "1"%string
    = Some {| Line.bus0 := "A"; Line.bus1 := "B"; Line.s_nom := 0 |}.
Proof.
  destruct (zero_capacity_after_fix oversized_network) as (nw1 & Hrun & _ & _ & Hkeep).
  exists nw1. split; [done |]. apply Hkeep.
  - vm_compute. discriminate.
  - vm_compute. reflexivity.
  - vm_compute. reflexivity.
Defined.

(** ** When the capacity floor binds *)




(** * Further properties of the Objective Reconstructor *)

(** ** When the reconstruction raises *)

Lemma cost_at_has_row {A} (table : gmap string A) (cost : A → Q)
    (frame : option TimeFrame) (s : nat) :
  is_Some (f ← frame; cost_at table cost f s) ↔ has_row frame s.
Proof.
  unfold has_row. destruct frame as [f|]; simpl.
  - unfold cost_at, loc. destruct (decide (s ∈ tf_index f)) as [Hs | Hs]; simpl.
    + split; [eauto | eauto].
    + split; [by intros [? ?] |]. intros (f' & [= <-] & ?). done.
  - split; [by intros [? ?] | by intros (f' & ? & ?)].
Qed.

Lemma add_snapshot_defined (nw : Network) (total : Q) (s : nat) :
  is_Some (add_snapshot nw total s) ↔ snapshot_readable nw s.
Proof.
  unfold add_snapshot, snapshot_readable.
  destruct (snapshot_weightings_objective nw !! s) as [w|]; simpl;
    [|split; [by intros [? ?] | by intros [[? ?] _]]].
  pose proof (cost_at_has_row (generators nw) Generator.marginal_cost
                (generators_t nw !! "p"%string) s) as Hg.
  pose proof (cost_at_has_row (storage_units nw) StorageUnit.marginal_cost
                (storage_units_t nw !! "p_dispatch"%string) s) as Hd.
  pose proof (cost_at_has_row (storage_units nw) StorageUnit.marginal_cost_storage
                (storage_units_t nw !! "p_store"%string) s) as Hs.
  pose proof (cost_at_has_row (storage_units nw) StorageUnit.spill_cost
                (storage_units_t nw !! "spill"%string) s) as Hp.
  destruct (0 <? size (generators nw))%nat eqn:Hgen.
  - apply size_pos_true in Hgen.
    destruct (generators_t nw !! "p"%string) as [p|]; simpl in *.
    2:{ split; [by intros [? ?] |]. intros (_ & Hrow & _).
        apply Hg in Hrow; [by destruct Hrow | done]. }
    destruct (cost_at (generators nw) Generator.marginal_cost p s) as [gc|];
      simpl in *.
    2:{ split; [by intros [? ?] |]. intros (_ & Hrow & _).
        apply Hg in Hrow; [by destruct Hrow | done]. }
    assert (has_row (Some p) s) as Hrowp by (apply Hg; eauto).
    destruct (0 <? size (storage_units nw))%nat eqn:Hsto.
    + apply size_pos_true in Hsto.
      destruct (storage_units_t nw !! "p_dispatch"%string) as [pd|]; simpl in *.
      2:{ split; [by intros [? ?] |]. intros (_ & _ & Hrow).
          destruct (Hrow Hsto) as (Hrow' & _).
          apply Hd in Hrow'. by destruct Hrow'. }
      destruct (cost_at (storage_units nw) StorageUnit.marginal_cost pd s);
        simpl in *.
      2:{ split; [by intros [? ?] |]. intros (_ & _ & Hrow).
          destruct (Hrow Hsto) as (Hrow' & _).
          apply Hd in Hrow'. by destruct Hrow'. }
      destruct (storage_units_t nw !! "p_store"%string) as [ps|]; simpl in *.
      2:{ split; [by intros [? ?] |]. intros (_ & _ & Hrow).
          destruct (Hrow Hsto) as (_ & Hrow' & _).
          apply Hs in Hrow'. by destruct Hrow'. }
      destruct (cost_at (storage_units nw) StorageUnit.marginal_cost_storage ps s);
        simpl in *.
      2:{ split; [by intros [? ?] |]. intros (_ & _ & Hrow).
          destruct (Hrow Hsto) as (_ & Hrow' & _).
          apply Hs in Hrow'. by destruct Hrow'. }
      destruct (storage_units_t nw !! "spill"%string) as [sp|]; simpl in *.
      * destruct (cost_at (storage_units nw) StorageUnit.spill_cost sp s);
          simpl in *.
        -- split; [intros _ | eauto]. split; [eauto |]. split; [done |].
           intros _. split; [apply Hd; eauto |]. split; [apply Hs; eauto |].
           intros _. apply Hp. eauto.
        -- split; [by intros [? ?] |]. intros (_ & _ & Hrow).
           destruct (Hrow Hsto) as (_ & _ & Hrow').
           apply Hp in Hrow'; [by destruct Hrow' | eauto].
      * split; [intros _ | eauto]. split; [eauto |]. split; [done |].
        intros _. split; [apply Hd; eauto |]. split; [apply Hs; eauto |].
        by intros [? ?].
    + apply size_pos_false in Hsto. split; [intros _ | eauto].
      split; [eauto |]. split; [done |]. done.
  - apply size_pos_false in Hgen.
    destruct (0 <? size (storage_units nw))%nat eqn:Hsto.
    + apply size_pos_true in Hsto. cbn [mbind option_bind].
      destruct (storage_units_t nw !! "p_dispatch"%string) as [pd|]; simpl in *.
      2:{ split; [by intros [? ?] |]. intros (_ & _ & Hrow).
          destruct (Hrow Hsto) as (Hrow' & _).
          apply Hd in Hrow'. by destruct Hrow'. }
      destruct (cost_at (storage_units nw) StorageUnit.marginal_cost pd s);
        simpl in *.
      2:{ split; [by intros [? ?] |]. intros (_ & _ & Hrow).
          destruct (Hrow Hsto) as (Hrow' & _).
          apply Hd in Hrow'. by destruct Hrow'. }
      destruct (storage_units_t nw !! "p_store"%string) as [ps|]; simpl in *.
      2:{ split; [by intros [? ?] |]. intros (_ & _ & Hrow).
          destruct (Hrow Hsto) as (_ & Hrow' & _).
          apply Hs in Hrow'. by destruct Hrow'. }
      destruct (cost_at (storage_units nw) StorageUnit.marginal_cost_storage ps s);
        simpl in *.
      2:{ split; [by intros [? ?] |]. intros (_ & _ & Hrow).
          destruct (Hrow Hsto) as (_ & Hrow' & _).
          apply Hs in Hrow'. by destruct Hrow'. }
      destruct (storage_units_t nw !! "spill"%string) as [sp|]; simpl in *.
      * destruct (cost_at (storage_units nw) StorageUnit.spill_cost sp s);
          simpl in *.
        -- split; [intros _ | eauto]. split; [eauto |]. split; [done |].
           intros _. split; [apply Hd; eauto |]. split; [apply Hs; eauto |].
           intros _. apply Hp. eauto.
        -- split; [by intros [? ?] |]. intros (_ & _ & Hrow).
           destruct (Hrow Hsto) as (_ & _ & Hrow').
           apply Hp in Hrow'; [by destruct Hrow' | eauto].
      * split; [intros _ | eauto]. split; [eauto |]. split; [done |].
        intros _. split; [apply Hd; eauto |]. split; [apply Hs; eauto |].
        by intros [? ?].
    + apply size_pos_false in Hsto. simpl. split; [intros _ | eauto].
      split; [eauto |]. split; [done |]. done.
Qed.

Lemma for_each_defined {St A} (body : St → A → option St) (P : A → Prop)
    (l : list A) (st : St) :
  (∀ st x, is_Some (body st x) ↔ P x) →
  is_Some (for_each body l st) ↔ ∀ x, x ∈ l → P x.
Proof.
  intros Hbody. revert st. induction l as [|x l IH]; intros st.
  - split; [|by eauto]. intros _ x Hx. by apply elem_of_nil in Hx.
  - cbn [for_each]. split.
    + intros Hrun y Hy.
      destruct (body st x) as [st'|] eqn:Hx; [|by destruct Hrun].
      apply elem_of_cons in Hy as [-> | Hy].
      * apply (Hbody st). by rewrite Hx.
      * by apply (IH st').
    + intros Hall.
      destruct (proj2 (Hbody st x) (Hall x ltac:(left))) as [st' Hx].
      rewrite Hx. simpl. apply IH. intros y Hy. apply Hall. by right.
Qed.

Lemma populated_readable (nw : Network) (s : nat) :
  results_populated nw → s ∈ snapshots nw → snapshot_readable nw s.
Proof.
  intros (Hw & Hg & Hs) Hin. split; [by apply Hw |]. split.
  - intros Hne. destruct (Hg Hne) as (f & Hf & Hcov). exists f. auto.
  - intros Hne. destruct (Hs Hne) as ((fd & Hfd & Hcd) & (fs & Hfs & Hcs) & Hsp).
    split; [exists fd; auto |]. split; [exists fs; auto |].
    intros Hsome. destruct (Hsp Hsome) as (fp & Hfp & Hcp). exists fp. auto.
Qed.

(** The reconstruction returns a value exactly when every snapshot is
    readable: its weight is there, and so is its row in each result table
    the pass reads (the dispatch table when there are generators; the
    p_dispatch, p_store and, if present, spill tables when there are storage
    units).  Populated result tables are enough.  A snapshot without a
    weight raises even for a network with no generator and no storage unit,
    and a snapshot missing from the dispatch table raises as soon as there is
    a generator. *)
Theorem total_objective_defined (nw : Network) :
  (is_Some (total_objective nw) ↔ ∀ s, s ∈ snapshots nw → snapshot_readable nw s) ∧
  (results_populated nw → is_Some (total_objective nw)) ∧
  (∀ s, s ∈ snapshots nw → snapshot_weightings_objective nw !! s = None →
        total_objective nw = None) ∧
  (∀ s f, s ∈ snapshots nw → generators nw ≠ ∅ →
          generators_t nw !! "p"%string = Some f → s ∉ tf_index f →
          total_objective nw = None).
Proof.
  assert (is_Some (total_objective nw)
          ↔ ∀ s, s ∈ snapshots nw → snapshot_readable nw s) as Hiff.
  { unfold total_objective. apply for_each_defined.
    intros st x. apply add_snapshot_defined. }
  split; [done |]. split; [|split].
  - intros Hpop. apply Hiff. intros s Hs. by apply populated_readable.
  - intros s Hs Hnone. apply eq_None_not_Some. intros Hsome.
    destruct (proj1 Hiff Hsome s Hs) as [[w Hw] _]. congruence.
  - intros s f Hs Hne Hf Hnot. apply eq_None_not_Some. intros Hsome.
    destruct (proj1 Hiff Hsome s Hs) as (_ & Hrow & _).
    destruct (Hrow Hne) as (f' & Hf' & Hin). congruence.
Qed.

Lemma total_objective_defined_witness :
  is_Some (total_objective scenario_4_spill) ∧
  total_objective
    (with_results (generators_t scenario_3) ∅ [0%nat; 1%nat; 2%nat]
       (snapshot_weightings_objective scenario_3) scenario_3) = None.
Proof.
  split.
  - apply total_objective_defined, scenario_4_spill_populated.
  - apply (proj1 (proj2 (proj2 (total_objective_defined _))) 2%nat).
    + right. right. left.
    + vm_compute. reflexivity.
Defined.

(** ** Sign of the total *)








(** ** The objective of a prepared network *)





(** * The diagnostics script *)

Lemma plot_py_max_list_spec (l : list Z) (m : Z) :
  Plot.py_max_list l = Some m → m ∈ l ∧ ∀ x, x ∈ l → (x <= m)%Z.
Proof.
  destruct l as [|x l]; [discriminate |]. simpl. intros [= <-].
  revert x. induction l as [|y l IH]; intros x; simpl.
  - split; [left |]. intros z ->%list_elem_of_singleton. lia.
  - destruct (IH (Z.max x y)) as [Hin Hub]. split.
    + apply elem_of_cons in Hin as [Hin | Hin]; [|right; by right].
      rewrite Hin. destruct (Z.max_spec x y) as [[_ ->] | [_ ->]];
        [right; left | left].
    + intros z Hz. apply elem_of_cons in Hz as [-> | [-> | Hz]%elem_of_cons].
      * pose proof (Hub (Z.max x y) ltac:(left)). lia.
      * pose proof (Hub (Z.max x y) ltac:(left)). lia.
      * apply Hub. by right.
Qed.

Lemma plot_elem_of_arange (stop z : Z) :
  z ∈ Plot.arange stop ↔ (0 <= z < stop)%Z.
Proof.
  unfold Plot.arange. rewrite list_elem_of_fmap. split.
  - intros (n & -> & Hn%elem_of_seq). lia.
  - intros Hz. exists (Z.to_nat z). split; [lia |]. apply elem_of_seq. lia.
Qed.

Lemma plot_read_csv_Some (files : gmap string (list Plot.Row)) (path : string)
    (df : list Plot.Row) :
  Plot.read_csv files path = Some df ↔ files !! path = Some df ∧ df ≠ [].
Proof.
  unfold Plot.read_csv. destruct (files !! path) as [[|r rows]|]; split;
    try discriminate; try (intros [[= <-] H]; done); try (by intros [? ?]).
  intros [= <-]. done.
Qed.

(** The figure drawn from two logs. *)
Lemma plot_make_figure_spec (files : gmap string (list Plot.Row)) (n : string)
    (fig : Plot.Figure) :
  Plot.make_figure files n = Some fig
  ↔ ∃ df13 df14 name last,
      Plot.read_csv files (Plot.file_path "EL-13" n) = Some df13 ∧
      Plot.read_csv files (Plot.file_path "EL-14" n) = Some df14 ∧
      Plot.constraint_labels !! n = Some name ∧
      Plot.py_max_list (Plot.step <$> df14) = Some last ∧
      fig = {| Plot.curves :=
                 [ {| Plot.curve_x := Plot.step <$> df13;
                      Plot.curve_y := Plot.value <$> df13;
                      Plot.marker := "o";
                      Plot.label := "EnvDispatchReplacement" |};
                   {| Plot.curve_x := Plot.step <$> df14;
                      Plot.curve_y := Plot.value <$> df14;
                      Plot.marker := "o";
                      Plot.label := "EnvDispatchConstr" |} ];
               Plot.title := name;
               Plot.xlabel := "Step"; Plot.ylabel := "Total Violation";
               Plot.xticks := Plot.arange (last + 1) |}.
Proof.
  unfold Plot.make_figure. cbn [for_each]. unfold Plot.plot_key.
  change (Plot.keys !! "EL-13"%string) with (Some "EnvDispatchReplacement"%string).
  change (Plot.keys !! "EL-14"%string) with (Some "EnvDispatchConstr"%string).
  destruct (Plot.read_csv files (Plot.file_path "EL-13" n)) as [df13|]; simpl.
  2:{ split; [discriminate | by intros (? & ? & ? & ? & ? & _)]. }
  destruct (Plot.read_csv files (Plot.file_path "EL-14" n)) as [df14|]; simpl.
  2:{ split; [discriminate | by intros (? & ? & ? & ? & _ & ? & _)]. }
  destruct (Plot.constraint_labels !! n) as [name|]; simpl.
  2:{ split; [discriminate | by intros (? & ? & ? & ? & _ & _ & ? & _)]. }
  destruct (Plot.py_max_list (Plot.step <$> df14)) as [last|] eqn:Hmax; simpl.
  2:{ split; [discriminate |].
      intros (? & ? & ? & ? & _ & [= <-] & _ & ? & _). congruence. }
  split.
  - intros [= <-]. by exists df13, df14, name, last.
  - intros (? & ? & ? & ? & [= <-] & [= <-] & [= <-] & Hm & ->).
    rewrite Hmax in Hm. by injection Hm as <-.
Qed.


Lemma plot_constraint_label (n : string) :
  n ∈ Plot.constraint_nums →
  Plot.constraint_labels !! n
  = Some (if String.eqb n "0" then "p_min_ZA0 0 coal"
          else if String.eqb n "2" then "p_max_ZA0 0 coal"
          else "soc_min_ZA0 0 PHS")%string.
Proof.
  unfold Plot.constraint_nums.
  intros [-> | [-> | [-> | []%elem_of_nil]%elem_of_cons]%elem_of_cons]%elem_of_cons;
    vm_compute; reflexivity.
Qed.

Lemma plot_make_figure_total (files : gmap string (list Plot.Row)) (n : string) :
  n ∈ Plot.constraint_nums →
  (∀ key, key ∈ ["EL-13"; "EL-14"]%string →
          ∃ r rows, files !! Plot.file_path key n = Some (r :: rows)) →
  ∃ fig df13 df14,
    Plot.make_figure files n = Some fig ∧
    files !! Plot.file_path "EL-13" n = Some df13 ∧
    files !! Plot.file_path "EL-14" n = Some df14 ∧
    Plot.constraint_labels !! n = Some (Plot.title fig) ∧
    (λ c, (Plot.label c, Plot.curve_x c, Plot.curve_y c)) <$> Plot.curves fig
    = [ ("EnvDispatchReplacement"%string, Plot.step <$> df13, Plot.value <$> df13);
        ("EnvDispatchConstr"%string, Plot.step <$> df14, Plot.value <$> df14) ].
Proof.
  intros Hn Hfiles.
  destruct (Hfiles "EL-13"%string ltac:(left)) as (r13 & rows13 & H13).
  destruct (Hfiles "EL-14"%string ltac:(right; left)) as (r14 & rows14 & H14).
  pose proof (plot_constraint_label n Hn) as Hlabel.
  eexists _, (r13 :: rows13), (r14 :: rows14).
  split; [|split; [done | split; [done |]]].
  - apply plot_make_figure_spec. eexists _, _, _, _.
    split; [by apply plot_read_csv_Some |].
    split; [by apply plot_read_csv_Some |].
    split; [exact Hlabel |]. split; [reflexivity | reflexivity].
  - split; [exact Hlabel | reflexivity].
Qed.

(** With the six logs there and not empty, the script runs to its end and
    saves three figures, for the constraints 0, 2 and 4 in this order, each
    titled with the constraint's label and holding two curves: the EL-13 log
    labelled EnvDispatchReplacement, then the EL-14 log labelled
    EnvDispatchConstr, each with its rows' steps and values in file order. *)
Theorem plot_script_complete (files : gmap string (list Plot.Row)) :
  (∀ key n, key ∈ ["EL-13"; "EL-14"]%string → n ∈ Plot.constraint_nums →
            ∃ r rows, files !! Plot.file_path key n = Some (r :: rows)) →
  ∃ f0 f2 f4,
    Plot.script files
    = ([ ("RL/constraint_plots/constraint_0.png"%string, f0);
         ("RL/constraint_plots/constraint_2.png"%string, f2);
         ("RL/constraint_plots/constraint_4.png"%string, f4) ], true) ∧
    Plot.title f0 = "p_min_ZA0 0 coal"%string ∧
    Plot.title f2 = "p_max_ZA0 0 coal"%string ∧
    Plot.title f4 = "soc_min_ZA0 0 PHS"%string ∧
    ∀ n fig, (n, fig) ∈ [ ("0"%string, f0); ("2"%string, f2); ("4"%string, f4) ] →
      ∃ df13 df14,
        files !! Plot.file_path "EL-13" n = Some df13 ∧
        files !! Plot.file_path "EL-14" n = Some df14 ∧
        (λ c, (Plot.label c, Plot.curve_x c, Plot.curve_y c)) <$> Plot.curves fig
        = [ ("EnvDispatchReplacement"%string, Plot.step <$> df13, Plot.value <$> df13);
            ("EnvDispatchConstr"%string, Plot.step <$> df14, Plot.value <$> df14) ].
Proof.
  intros Hfiles.
  assert (∀ n, n ∈ Plot.constraint_nums →
               ∀ key, key ∈ ["EL-13"; "EL-14"]%string →
                      ∃ r rows, files !! Plot.file_path key n = Some (r :: rows))
    as Hn by (intros n Hn key Hkey; by apply Hfiles).
  destruct (plot_make_figure_total files "0") as (f0 & a0 & b0 & H0 & Ha0 & Hb0 & Ht0 & Hc0);
    [left | apply Hn; left |].
  destruct (plot_make_figure_total files "2") as (f2 & a2 & b2 & H2 & Ha2 & Hb2 & Ht2 & Hc2);
    [right; left | apply Hn; right; left |].
  destruct (plot_make_figure_total files "4") as (f4 & a4 & b4 & H4 & Ha4 & Hb4 & Ht4 & Hc4);
    [right; right; left | apply Hn; right; right; left |].
  exists f0, f2, f4. split.
  { unfold Plot.script, Plot.constraint_nums. cbn [Plot.save_figures].
    rewrite H0. cbn [Plot.save_figures]. rewrite H2. cbn [Plot.save_figures].
    rewrite H4. reflexivity. }
  assert (Plot.constraint_labels !! "0"%string = Some "p_min_ZA0 0 coal"%string)
    as E0 by (vm_compute; reflexivity).
  assert (Plot.constraint_labels !! "2"%string = Some "p_max_ZA0 0 coal"%string)
    as E2 by (vm_compute; reflexivity).
  assert (Plot.constraint_labels !! "4"%string = Some "soc_min_ZA0 0 PHS"%string)
    as E4 by (vm_compute; reflexivity).
  split; [congruence |]. split; [congruence |]. split; [congruence |].
  intros n fig Hin.
  apply elem_of_cons in Hin as [[= -> ->] | Hin]; [by exists a0, b0 |].
  apply elem_of_cons in Hin as [[= -> ->] | Hin]; [by exists a2, b2 |].
  apply elem_of_cons in Hin as [[= -> ->] | Hin]; [by exists a4, b4 |].
  by apply elem_of_nil in Hin.
Qed.

Lemma plot_example_files_present (key n : string) :
  key ∈ ["EL-13"; "EL-14"]%string → n ∈ Plot.constraint_nums →
  ∃ r rows, Plot.example_files !! Plot.file_path key n = Some (r :: rows).
Proof.
  unfold Plot.constraint_nums.
  intros [-> | [-> | []%elem_of_nil]%elem_of_cons]%elem_of_cons
         [-> | [-> | [-> | []%elem_of_nil]%elem_of_cons]%elem_of_cons]%elem_of_cons;
    vm_compute; eauto.
Qed.

Lemma plot_script_complete_witness :
  ∃ saved, Plot.script Plot.example_files = (saved, true) ∧ length saved = 3%nat.
Proof.
  destruct (plot_script_complete Plot.example_files plot_example_files_present)
    as (f0 & f2 & f4 & Hrun & _).
  eexists. split; [exact Hrun | reflexivity].
Defined.



(** The x ticks of a figure come from the EL-14 log alone, the last one read:
    they are the integers from 0 to that log's largest step, none when it is
    negative.  The EL-13 log has no say, so a step it alone reaches is drawn
    without a tick, as in the example logs. *)
Theorem plot_xticks_from_last_log (files : gmap string (list Plot.Row))
    (n : string) (fig : Plot.Figure) :
  Plot.make_figure files n = Some fig →
  ∃ df14 last,
    files !! Plot.file_path "EL-14" n = Some df14 ∧
    last ∈ Plot.step <$> df14 ∧
    (∀ row, row ∈ df14 → (Plot.step row <= last)%Z) ∧
    Plot.xticks fig = Z.of_nat <$> seq 0 (Z.to_nat (last + 1)) ∧
    (∀ z, z ∈ Plot.xticks fig ↔ (0 <= z <= last)%Z) ∧
    (∀ files' fig',
       files' !! Plot.file_path "EL-14" n = files !! Plot.file_path "EL-14" n →
       Plot.make_figure files' n = Some fig' →
       Plot.xticks fig' = Plot.xticks fig) ∧
    ∃ fig0 curve,
      Plot.make_figure Plot.example_files "0" = Some fig0 ∧
      Plot.curves fig0 !! 0%nat = Some curve ∧
      3%Z ∈ Plot.curve_x curve ∧
      3%Z ∉ Plot.xticks fig0.
Proof.
  intros Hfig.
  apply plot_make_figure_spec in Hfig
    as (df13 & df14 & name & last & _ & [H14 _]%plot_read_csv_Some & _ & Hmax & ->).
  destruct (plot_py_max_list_spec _ _ Hmax) as [Hin Hub].
  exists df14, last. split; [done |]. split; [done |]. split.
  { intros row Hrow. apply Hub, list_elem_of_fmap. eauto. }
  split; [done |]. split.
  { intros z. simpl. rewrite plot_elem_of_arange. lia. }
  split.
  - intros files' fig' Hsame Hfig'.
    apply plot_make_figure_spec in Hfig'
      as (df13' & df14' & name' & last' & _ & [H14' _]%plot_read_csv_Some & _
          & Hmax' & ->).
    simpl. rewrite Hsame, H14 in H14'. injection H14' as <-.
    rewrite Hmax in Hmax'. by injection Hmax' as <-.
  - eexists _, _. split; [vm_compute; reflexivity |].
    split; [reflexivity |]. split.
    + simpl. do 3 right. left.
    + simpl. intros H.
      repeat (apply elem_of_cons in H as [H | H]; [lia |]).
      by apply elem_of_nil in H.
Qed.

Lemma plot_xticks_from_last_log_witness :
  ∃ fig, Plot.make_figure Plot.example_files "2" = Some fig ∧
         Plot.xticks fig = [0; 1; 2]%Z.
Proof.
  assert (is_Some (Plot.make_figure Plot.example_files "2")) as [fig Hfig].
  { vm_compute. eauto. }
  destruct (plot_xticks_from_last_log Plot.example_files "2" fig Hfig)
    as (df14 & last & H14 & Hin & Hub & Hticks & _).
  exists fig. split; [done |]. rewrite Hticks.
  vm_compute in H14. injection H14 as <-.
  assert (last = 2%Z) as ->; [|reflexivity].
  simpl in Hin.
  assert (2 <= last)%Z.
  { apply (Hub {| Plot.step := 2; Plot.timestamp := "2025-01-01";
                  Plot.value := inject_Z 2 |}).
    do 2 right. left. }
  apply elem_of_cons in Hin as [-> | Hin]; [lia |].
  apply elem_of_cons in Hin as [-> | Hin]; [lia |].
  apply elem_of_cons in Hin as [-> | Hin]; [reflexivity |].
  apply elem_of_nil in Hin. destruct Hin.
Defined.
